(** * SafeShe API: a shallow embedding of [main.py] and [schemas.py]

    The development follows the layout of the service:
    - Python values, dictionaries and [json.dumps];
    - [ConnectionManager], the in-memory registry of live viewers;
    - the document store behind [create_document] / [get_documents];
    - the pydantic models of [schemas.py] with their field constraints;
    - the request handlers of [main.py];
    - the properties of the specification, one theorem per property.

    Conventions.  Strings are ASCII.  A [float] is a rational number: only
    finite values are modelled, and on those the comparisons of the field
    constraints are the comparisons of [Q].  A [datetime] is a number of
    clock ticks counted from [datetime.min].  The text handed to
    [send_text] is represented by the JSON tree that it encodes. *)

From Stdlib Require Import Ascii String QArith Sorted.
From stdpp Require Import gmap strings list fin_maps pretty.

Local Open Scope string_scope.
Local Open Scope list_scope.
Set Warnings "-register-all".

(** ** Python values *)

Abbreviation datetime := nat (only parsing).
Abbreviation ObjectId := nat (only parsing).

(** [datetime.min] *)
Definition datetime_min : datetime := 0.

Inductive pyval : Type :=
| VNone
| VBool (b : bool)
| VInt (z : Z)
| VFloat (q : Q)
| VStr (s : string)
| VDatetime (t : datetime)
| VObjectId (o : ObjectId)
| VList (l : list pyval)
| VDict (d : list (string * pyval)).

(** A [dict] with string keys, in insertion order. *)
Abbreviation dict := (list (string * pyval)) (only parsing).

(** [d.get(key)] *)
Fixpoint dict_get (key : string) (d : dict) : option pyval :=
  match d with
  | [] => None
  | (k, v) :: d' => if decide (k = key) then Some v else dict_get key d'
  end.

(** [d[key] = v]: an existing key keeps its position, a new one goes last. *)
Fixpoint dict_set (key : string) (v : pyval) (d : dict) : dict :=
  match d with
  | [] => [(key, v)]
  | (k, x) :: d' =>
      if decide (k = key) then (k, v) :: d' else (k, x) :: dict_set key v d'
  end.

(** [{k: v for k, v in d.items() if v is not None}] *)
Fixpoint dict_drop_none (d : dict) : dict :=
  match d with
  | [] => []
  | (k, VNone) :: d' => dict_drop_none d'
  | (k, v) :: d' => (k, v) :: dict_drop_none d'
  end.

(** ** JSON text *)

Inductive json : Type :=
| JNull
| JBool (b : bool)
| JInt (z : Z)
| JFloat (q : Q)
| JStr (s : string)
| JArray (l : list json)
| JObject (l : list (string * json)).

(** [json.dumps(v, default=default)].  [None], booleans, numbers, strings,
    lists and dicts are encoded natively.  Any other object goes through
    [default] when one is given, and is a [TypeError] (here [None])
    otherwise: this is the case of [datetime] and [ObjectId]. *)
Fixpoint json_dumps (default : option (pyval → string)) (v : pyval) : option json :=
  match v with
  | VNone => Some JNull
  | VBool b => Some (JBool b)
  | VInt z => Some (JInt z)
  | VFloat q => Some (JFloat q)
  | VStr s => Some (JStr s)
  | VDatetime _ | VObjectId _ =>
      match default with
      | Some f => Some (JStr (f v))
      | None => None
      end
  | VList l =>
      let fix items (l : list pyval) : option (list json) :=
        match l with
        | [] => Some []
        | x :: l' =>
            match json_dumps default x, items l' with
            | Some j, Some js => Some (j :: js)
            | _, _ => None
            end
        end in
      match items l with Some js => Some (JArray js) | None => None end
  | VDict d =>
      let fix members (d : list (string * pyval)) : option (list (string * json)) :=
        match d with
        | [] => Some []
        | (k, x) :: d' =>
            match json_dumps default x, members d' with
            | Some j, Some js => Some ((k, j) :: js)
            | _, _ => None
            end
        end in
      match members d with Some js => Some (JObject js) | None => None end
  end.

(** ** Exceptions and results *)

Inductive exn : Type :=
| HTTPException (status_code : nat) (detail : string)
| RequestValidationError   (* the request layer refuses the body: 422 *)
| ValidationError          (* a pydantic model refuses its arguments *)
| TypeError
| KeyError
| ConnectionClosed         (* accept or send on a connection that is gone *)
| DatabaseUnavailable.

Inductive result (A : Type) : Type :=
| Ok (a : A)
| Raise (e : exn).
Arguments Ok {A} a.
Arguments Raise {A} e.

(** ** WebSocket live tracking: [ConnectionManager] *)

(** A connection object; two connections are equal when they are the same
    object. *)
Abbreviation WebSocket := nat (only parsing).

(** How the peers behave while one call runs: whether the handshake of a
    connection completes, and whether a text can still be sent to it. *)
Record Net : Type := {
  accept_ok : WebSocket → bool;
  send_ok : WebSocket → bool;
}.

(** What the peers have received, oldest first. *)
Abbreviation Wire := (list (WebSocket * json)) (only parsing).

Module ConnectionManager.

(** [self.active: dict[str, list[WebSocket]]] *)
Abbreviation Registry := (gmap string (list WebSocket)) (only parsing).

(** [__init__] *)
Definition init : Registry := ∅.

(** [conns.remove(websocket)]: the first occurrence goes. *)
Fixpoint remove_first (websocket : WebSocket) (conns : list WebSocket)
  : list WebSocket :=
  match conns with
  | [] => []
  | ws :: conns' =>
      if decide (ws = websocket) then conns'
      else ws :: remove_first websocket conns'
  end.

(** [self.active.get(user_id, [])] *)
Definition get (user_id : string) (active : Registry) : list WebSocket :=
  default [] (active !! user_id).

(** [connect]: [accept] raises or returns; then
    [self.active.setdefault(user_id, []).append(websocket)]. *)
Definition connect (net : Net) (user_id : string) (websocket : WebSocket)
    (active : Registry) : result unit * Registry :=
  if accept_ok net websocket
  then (Ok tt, <[user_id := get user_id active ++ [websocket]]> active)
  else (Raise ConnectionClosed, active).

(** [disconnect].  [conns] is the list held by the registry when the key
    is present (the removal is seen by the registry) and a fresh empty
    list when it is not. *)
Definition disconnect (user_id : string) (websocket : WebSocket)
    (active : Registry) : Registry :=
  let conns := get user_id active in
  let '(conns, active) :=
    if decide (websocket ∈ conns)
    then (remove_first websocket conns,
          <[user_id := remove_first websocket conns]> active)
    else (conns, active) in
  if decide (conns = [] ∧ is_Some (active !! user_id))
  then delete user_id active
  else active.

(** The body of the [try] in [broadcast]:
    [await ws.send_text(json.dumps(message))]. *)
Definition send_message (net : Net) (ws : WebSocket) (message : pyval)
  : result json :=
  match json_dumps None message with
  | None => Raise TypeError
  | Some text => if send_ok net ws then Ok text else Raise ConnectionClosed
  end.

(** One turn of the first loop of [broadcast], on the pair of the wire
    and the [stale] list. *)
Definition broadcast_step (net : Net) (message : pyval)
    (st : Wire * list WebSocket) (ws : WebSocket) : Wire * list WebSocket :=
  match send_message net ws message with
  | Ok text => (st.1 ++ [(ws, text)], st.2)
  | Raise _ => (st.1, st.2 ++ [ws])
  end.

(** [broadcast]: every exception of a send is caught, so the call
    always returns. *)
Definition broadcast (net : Net) (user_id : string) (message : pyval)
    (active : Registry) (wire : Wire) : result unit * Registry * Wire :=
  let conns := get user_id active in
  let '(wire, stale) := foldl (broadcast_step net message) (wire, []) conns in
  (Ok tt, foldl (λ active ws, disconnect user_id ws active) active stale, wire).

End ConnectionManager.

(** ** Strings and sorting *)

(** [c.lower()] on one ASCII character *)
Definition lower_ascii (c : ascii) : ascii :=
  let n := nat_of_ascii c in
  if (65 <=? n)%nat && (n <=? 90)%nat then ascii_of_nat (n + 32) else c.

(** [s.lower()] *)
Fixpoint lower (s : string) : string :=
  match s with
  | EmptyString => EmptyString
  | String c s' => String (lower_ascii c) (lower s')
  end.

(** [x or y] on an optional string: [None] and the empty string are falsy. *)
Definition str_or (x : option string) (y : string) : string :=
  match x with
  | Some s => if decide (s = "") then y else s
  | None => y
  end.

(** [x.get("created_at", datetime.min)], the key of the sorts of [main.py].
    The store puts a [datetime] under [created_at]. *)
Definition created_at_key (x : dict) : datetime :=
  match dict_get "created_at" x with
  | Some (VDatetime t) => t
  | _ => datetime_min
  end.

Section sorting.
Context {A : Type} (key : A → nat).

Fixpoint insert_desc (x : A) (l : list A) : list A :=
  match l with
  | [] => [x]
  | y :: l' => if (key x <? key y)%nat then y :: insert_desc x l' else x :: y :: l'
  end.

(** [l.sort(key=key, reverse=True)]: largest key first; the sort is
    stable, items with equal keys stay in their order. *)
Fixpoint sort_desc (l : list A) : list A :=
  match l with
  | [] => []
  | x :: l' => insert_desc x (sort_desc l')
  end.
End sorting.

(** ** The state of the service *)

(** Modelled from the spec: [database.py] ([db], [create_document],
    [get_documents]) is not among the sources.  The specification gives
    the store two operations, [insert(collection, record) -> id] and
    [query(collection, filter, limit) -> list of records], says that each
    record carries a store-generated identifier and a creation timestamp,
    and promises no ordering.  A collection is kept as the list of its
    records in the order in which a query returns them. *)
Record Database : Type := {
  collections : gmap string (list (list (string * pyval)));
  next_id : ObjectId;
}.

Record World : Type := {
  db : option Database;                         (* [database.db] *)
  clock : datetime;                             (* the wall clock *)
  active : gmap string (list WebSocket);        (* [manager.active] *)
  wire : list (WebSocket * json);
}.

Definition set_db (d : Database) (w : World) : World :=
  {| db := Some d; clock := clock w; active := active w; wire := wire w |}.

Definition set_manager (a : gmap string (list WebSocket)) (wi : Wire)
    (w : World) : World :=
  {| db := db w; clock := clock w; active := a; wire := wi |}.

(** Time passes between two requests. *)
Definition elapse (n : nat) (w : World) : World :=
  {| db := db w; clock := clock w + n; active := active w; wire := wire w |}.

(** A started service: connected store, no record, no viewer. *)
Definition fresh : World :=
  {| db := Some {| collections := ∅; next_id := 0 |};
     clock := 1; active := ConnectionManager.init; wire := [] |}.

(** Handlers thread the state and may raise. *)
Definition M (A : Type) : Type := World → result A * World.

Definition ret {A} (a : A) : M A := λ w, (Ok a, w).
Definition raise {A} (e : exn) : M A := λ w, (Raise e, w).
Definition bind {A B} (m : M A) (k : A → M B) : M B :=
  λ w, match m w with
       | (Ok a, w') => k a w'
       | (Raise e, w') => (Raise e, w')
       end.

(** [try: m except Exception: handler] *)
Definition try_except {A} (m : M A) (handler : exn → M A) : M A :=
  λ w, match m w with
       | (Ok a, w') => (Ok a, w')
       | (Raise e, w') => handler e w'
       end.

Notation "x <~ m ;; k" := (bind m (λ x, k))
  (at level 100, m at next level, right associativity).

(** [datetime.now(timezone.utc)] *)
Definition datetime_now : M datetime := λ w, (Ok (clock w), w).

(** ** [schemas.py] *)

(** [Field(ge=bound)] and [Field(le=bound)] on a number, and a constraint
    on an [Optional] field, which [None] satisfies. *)
Definition ge (bound v : Q) : bool := Qle_bool bound v.
Definition le (bound v : Q) : bool := Qle_bool v bound.
Definition optional {A} (check : A → bool) (v : option A) : bool :=
  match v with
  | Some x => check x
  | None => true
  end.

(** A field of [model_dump()]: the value, or [None]. *)
Definition dump {A} (inj : A → pyval) (v : option A) : pyval :=
  match v with
  | Some x => inj x
  | None => VNone
  end.

Module User.
Record t : Type := {
  name : option string;
  email : option string;
  provider : option string;
  provider_id : option string;
  photo_url : option string;
  is_active : bool;
}.

(** [email] is an [EmailStr] and [photo_url] an [HttpUrl]; both checks
    belong to pydantic and are taken as given. *)
Definition valid (email_str http_url : string → bool) (u : t) : bool :=
  optional email_str (email u) && optional http_url (photo_url u).

Definition model_dump (u : t) : dict :=
  [("name", dump VStr (name u)); ("email", dump VStr (email u));
   ("provider", dump VStr (provider u));
   ("provider_id", dump VStr (provider_id u));
   ("photo_url", dump VStr (photo_url u)); ("is_active", VBool (is_active u))].
End User.

Module Trackpoint.
Record t : Type := {
  user_id : string;
  lat : Q;
  lng : Q;
  accuracy : option Q;
  speed : option Q;
  heading : option Q;
  battery : option Q;
  ts : option datetime;
}.

Definition valid (p : t) : bool :=
  ge (inject_Z (-90)) (lat p) && le (inject_Z 90) (lat p)
  && ge (inject_Z (-180)) (lng p) && le (inject_Z 180) (lng p)
  && optional (ge (inject_Z 0)) (accuracy p)
  && optional (ge (inject_Z 0)) (speed p)
  && optional (λ v, ge (inject_Z 0) v && le (inject_Z 360) v) (heading p)
  && optional (λ v, ge (inject_Z 0) v && le (inject_Z 100) v) (battery p).

Definition model_dump (p : t) : dict :=
  [("user_id", VStr (user_id p)); ("lat", VFloat (lat p));
   ("lng", VFloat (lng p)); ("accuracy", dump VFloat (accuracy p));
   ("speed", dump VFloat (speed p)); ("heading", dump VFloat (heading p));
   ("battery", dump VFloat (battery p)); ("ts", dump VDatetime (ts p))].
End Trackpoint.

Module Incident.
Record t : Type := {
  user_id : string;
  type : string;
  description : option string;
  lat : option Q;
  lng : option Q;
  media_urls : list string;
  severity : option Z;
}.

Definition valid (http_url : string → bool) (i : t) : bool :=
  optional (λ v, ge (inject_Z (-90)) v && le (inject_Z 90) v) (lat i)
  && optional (λ v, ge (inject_Z (-180)) v && le (inject_Z 180) v) (lng i)
  && forallb http_url (media_urls i)
  && optional (λ v, (1 <=? v)%Z && (v <=? 5)%Z) (severity i).

Definition model_dump (i : t) : dict :=
  [("user_id", VStr (user_id i)); ("type", VStr (type i));
   ("description", dump VStr (description i)); ("lat", dump VFloat (lat i));
   ("lng", dump VFloat (lng i)); ("media_urls", VList (VStr <$> media_urls i));
   ("severity", dump VInt (severity i))].
End Incident.

Module Guardian.
Record t : Type := {
  user_id : string;
  name : string;
  phone : option string;
  email : option string;
  relationship : option string;
}.

(** [email] is an [EmailStr]. *)
Definition valid (email_str : string → bool) (g : t) : bool :=
  optional email_str (email g).

Definition model_dump (g : t) : dict :=
  [("user_id", VStr (user_id g)); ("name", VStr (name g));
   ("phone", dump VStr (phone g)); ("email", dump VStr (email g));
   ("relationship", dump VStr (relationship g))].
End Guardian.

(** ** [main.py] *)

Module MockAuthRequest.
Record t : Type := {
  provider : string;
  token : option string;
  name : option string;
  email : option string;
  photo_url : option string;
}.
End MockAuthRequest.

(** The requests of the HTTP surface that the properties below are about,
    each with the body or the query parameter that the request layer has
    parsed for its handler. *)
Inductive request : Type :=
| POST_auth_mock_login (payload : MockAuthRequest.t)
| POST_location_update (point : Trackpoint.t)
| GET_location_last (user_id : string)
| POST_incidents (inc : Incident.t).

Section service.

(** The built-in [str], [datetime.isoformat] and the two string formats
    of pydantic are library code; the handlers are written over them. *)
Variable str : pyval → string.
Variable isoformat : datetime → string.
Variables email_str http_url : string → bool.

(** Modelled from the spec: [create_document] of the absent
    [database.py], the [insert(collection, record) -> id] of the
    specification.  The record gets a fresh identifier and its creation
    time, and is the last that a query of the collection returns; the
    identifier is handed back as a string. *)
Definition create_document (collection_name : string) (data : dict) : M string :=
  λ w, match db w with
       | None => (Raise DatabaseUnavailable, w)
       | Some d =>
           let oid := next_id d in
           let record :=
             dict_set "created_at" (VDatetime (clock w))
               (("_id", VObjectId oid) :: data) in
           let records := default [] (collections d !! collection_name) in
           (Ok (str (VObjectId oid)),
            set_db {| collections :=
                        <[collection_name := records ++ [record]]> (collections d);
                      next_id := S oid |} w)
       end.

(** A filter of [main.py] asks for records whose fields hold given
    strings. *)
Definition matches (filter_dict : list (string * string)) (record : dict) : bool :=
  forallb (λ kv, match dict_get kv.1 record with
                 | Some (VStr s) => bool_decide (s = kv.2)
                 | _ => false
                 end) filter_dict.

(** Modelled from the spec: [get_documents] of the absent [database.py],
    the [query(collection, filter, limit) -> list of records] of the
    specification: at most [limit] of the matching records, in the order
    of the store. *)
Definition get_documents (collection_name : string)
    (filter_dict : list (string * string)) (limit : nat) : M (list dict) :=
  λ w, match db w with
       | None => (Raise DatabaseUnavailable, w)
       | Some d =>
           (Ok (take limit
                  (List.filter (matches filter_dict)
                     (default [] (collections d !! collection_name)))), w)
       end.

(** *** Auth *)

Definition providers : list string := ["google"; "microsoft"; "apple"; "mock"].

(** [User(name=..., email=..., ...)]: the constructor checks the fields
    and raises [ValidationError] when one is refused.  Pydantic's
    [EmailStr] and [HttpUrl] may besides rewrite an accepted value into a
    normal form (the domain of an address in lower case, a URL with its
    trailing slash); that rewriting is not modelled, so the [email] and
    [photo_url] of the result are exact only for values already in normal
    form, and no property below depends on their stored form. *)
Definition new_User (u : User.t) : M User.t :=
  if User.valid email_str http_url u then ret u else raise ValidationError.

Definition mock_login (payload : MockAuthRequest.t) : M dict :=
  let provider := lower (MockAuthRequest.provider payload) in
  if bool_decide (provider ∉ providers)
  then raise (HTTPException 400 "Unsupported provider")
  else
    user_doc <~ new_User
      {| User.name := Some (str_or (MockAuthRequest.name payload) "SafeShe User");
         User.email :=
           Some (str_or (MockAuthRequest.email payload)
                   ("user-" +:+ provider +:+ "@safeshe.app"));
         User.provider := Some provider;
         User.provider_id :=
           Some (str_or (MockAuthRequest.token payload) "mock-token");
         User.photo_url := MockAuthRequest.photo_url payload;
         User.is_active := true |} ;;
    user_id <~ create_document "user" (User.model_dump user_doc) ;;
    ret [("user_id", VStr user_id); ("provider", VStr provider)].

(** *** Location tracking *)

(** [manager.broadcast] on the registry of the service *)
Definition ws_broadcast (net : Net) (user_id : string) (message : pyval) : M unit :=
  λ w, let '(r, a, wi) :=
         ConnectionManager.broadcast net user_id message (active w) (wire w) in
       (r, set_manager a wi w).

Definition location_update (net : Net) (point : Trackpoint.t) : M dict :=
  let data := Trackpoint.model_dump point in
  now <~ datetime_now ;;
  let data := dict_set "server_ts" (VDatetime now) data in
  new_id <~ create_document "trackpoint" data ;;
  _ <~ ws_broadcast net (Trackpoint.user_id point)
         (VDict [("type", VStr "track");
                 ("data", VDict
                    (dict_set "server_ts" (VStr (isoformat now))
                       (dict_set "_id" (VStr new_id)
                          (dict_drop_none (Trackpoint.model_dump point)))))]) ;;
  ret [("trackpoint_id", VStr new_id)].

(** [latest["_id"] = str(latest["_id"])] *)
Definition serialize_id (latest : dict) : M dict :=
  match dict_get "_id" latest with
  | Some oid => ret (dict_set "_id" (VStr (str oid)) latest)
  | None => raise KeyError
  end.

Definition location_last (user_id : string) : M dict :=
  items <~ get_documents "trackpoint" [("user_id", user_id)] 50 ;;
  let items := sort_desc created_at_key items in
  match items with
  | [] => ret [("latest", VNone)]
  | [] :: _ => ret [("latest", VDict [])]
  | latest :: _ =>
      latest <~ serialize_id latest ;;
      ret [("latest", VDict latest)]
  end.

(** *** Incidents *)

Definition create_incident (inc : Incident.t) : M dict :=
  iid <~ create_document "incident" (Incident.model_dump inc) ;;
  ret [("incident_id", VStr iid)].

(** *** WebSocket live tracking *)

Definition manager_connect (net : Net) (user_id : string) (websocket : WebSocket)
  : M unit :=
  λ w, let '(r, a) := ConnectionManager.connect net user_id websocket (active w) in
       (r, set_manager a (wire w) w).

Definition manager_disconnect (user_id : string) (websocket : WebSocket) : M unit :=
  λ w, (Ok tt,
        set_manager (ConnectionManager.disconnect user_id websocket (active w))
          (wire w) w).

(** [await websocket.send_text(json.dumps(message, default=str))] *)
Definition send_text_default_str (net : Net) (websocket : WebSocket)
    (message : pyval) : M unit :=
  match json_dumps (Some str) message with
  | None => raise TypeError
  | Some text =>
      if send_ok net websocket
      then λ w, (Ok tt, set_manager (active w) (wire w ++ [(websocket, text)]) w)
      else raise ConnectionClosed
  end.

(** [websocket_endpoint] up to its receive loop: the connection is
    registered, then the last known point is sent; whatever that second
    step raises is dropped. *)
Definition websocket_endpoint (net : Net) (user_id : string)
    (websocket : WebSocket) : M unit :=
  _ <~ manager_connect net user_id websocket ;;
  try_except
    (items <~ get_documents "trackpoint" [("user_id", user_id)] 1 ;;
     let items := sort_desc created_at_key items in
     match items with
     | [] => ret tt
     | latest :: _ =>
         latest <~ serialize_id latest ;;
         send_text_default_str net websocket
           (VDict [("type", VStr "last"); ("data", VDict latest)])
     end)
    (λ _, ret tt).

(** [websocket_endpoint] when its receive loop ends with
    [WebSocketDisconnect]. *)
Definition websocket_endpoint_disconnect (user_id : string)
    (websocket : WebSocket) : M unit :=
  manager_disconnect user_id websocket.

(** *** The request layer

    A handler with a model parameter runs on a body that the model
    accepts; any other body is answered with a validation error and the
    handler does not run. *)
Definition app (net : Net) (req : request) : M dict :=
  match req with
  | POST_auth_mock_login payload => mock_login payload
  | POST_location_update point =>
      if Trackpoint.valid point then location_update net point
      else raise RequestValidationError
  | GET_location_last user_id => location_last user_id
  | POST_incidents inc =>
      if Incident.valid http_url inc then create_incident inc
      else raise RequestValidationError
  end.

End service.

(** ** [main.py], the other handlers *)

Section other_handlers.

Variable str : pyval → string.
Variable email_str : string → bool.

(** Modelled from the spec: [get_documents] of the absent [database.py]
    called without [limit]: all the matching records, in the order of the
    store. *)
Definition get_documents_all (collection_name : string)
    (filter_dict : list (string * string)) : M (list dict) :=
  λ w, match db w with
       | None => (Raise DatabaseUnavailable, w)
       | Some d =>
           (Ok (List.filter (matches filter_dict)
                  (default [] (collections d !! collection_name))), w)
       end.

(** [for x in items: x["_id"] = str(x["_id"])] *)
Fixpoint serialize_ids (items : list dict) : M (list dict) :=
  match items with
  | [] => ret []
  | x :: items' =>
      x <~ serialize_id str x ;;
      items' <~ serialize_ids items' ;;
      ret (x :: items')
  end.

(** *** Health *)

(** [db.list_collection_names()] belongs to the driver: for a connected
    store it returns ([None]) or raises an exception, given by its
    [str]. *)
Definition health (list_collection_names : Database → option string) : M dict :=
  λ w, let database :=
         match db w with
         | None => "disconnected"
         | Some d =>
             match list_collection_names d with
             | None => "ok"
             | Some e => "error: " +:+ substring 0 80 e
             end
         end in
       (Ok [("backend", VStr "ok"); ("database", VStr database)], w).

(** *** Auth *)

Definition auth_providers : M dict :=
  ret [("providers",
        VList [VStr "google"; VStr "microsoft"; VStr "apple"; VStr "mock"])].

(** *** Guardians *)

Definition add_guardian (guardian : Guardian.t) : M dict :=
  gid <~ create_document str "guardian" (Guardian.model_dump guardian) ;;
  ret [("guardian_id", VStr gid)].

(** [POST /guardians]: the handler runs on a body that the model accepts. *)
Definition post_guardians (body : Guardian.t) : M dict :=
  if Guardian.valid email_str body then add_guardian body
  else raise RequestValidationError.

Definition list_guardians (user_id : string) : M dict :=
  items <~ get_documents_all "guardian" [("user_id", user_id)] ;;
  items <~ serialize_ids items ;;
  ret [("items", VList (VDict <$> items))].

(** *** Incidents *)

(** [list_incidents], for a [limit] that is not negative.  An empty
    [user_id] is falsy and gives the empty filter. *)
Definition list_incidents (user_id : option string) (limit : nat) : M dict :=
  let filt :=
    match user_id with
    | Some u => if decide (u = "") then [] else [("user_id", u)]
    | None => []
    end in
  items <~ get_documents "incident" filt limit ;;
  items <~ serialize_ids items ;;
  let items := sort_desc created_at_key items in
  ret [("items", VList (VDict <$> items))].

End other_handlers.


(** * The vocabulary of the properties *)

Import ConnectionManager.

(** ** The registry *)

(** No user is kept with an empty list of connections. *)
Definition registry_inv (active : gmap string (list WebSocket)) : Prop :=
  ∀ user_id conns, active !! user_id = Some conns → conns ≠ [].

(** The operations of the registry, each with the behaviour of the peers
    while it runs. *)
Inductive op : Type :=
| Connect (net : Net) (user_id : string) (websocket : WebSocket)
| Disconnect (user_id : string) (websocket : WebSocket)
| Broadcast (net : Net) (user_id : string) (message : pyval).

Definition step (st : gmap string (list WebSocket) * Wire) (o : op)
  : gmap string (list WebSocket) * Wire :=
  match o with
  | Connect net user_id websocket => ((connect net user_id websocket st.1).2, st.2)
  | Disconnect user_id websocket => (disconnect user_id websocket st.1, st.2)
  | Broadcast net user_id message =>
      let '(_, active, wire) := broadcast net user_id message st.1 st.2 in
      (active, wire)
  end.

Definition run (ops : list op) (st : gmap string (list WebSocket) * Wire)
  : gmap string (list WebSocket) * Wire :=
  foldl step st ops.

(** Whether the send of [broadcast] to a connection goes through. *)
Definition delivers (net : Net) (message : pyval) (ws : WebSocket) : bool :=
  match send_message net ws message with
  | Ok _ => true
  | Raise _ => false
  end.


Definition connect_all (calls : list (Net * string * WebSocket))
    (active : gmap string (list WebSocket)) : gmap string (list WebSocket) :=
  foldl (λ active c, (connect c.1.1 c.1.2 c.2 active).2) active calls.


(** Every peer is reachable. *)
Definition net_up : Net := {| accept_ok := λ _, true; send_ok := λ _, true |}.

(** The peers of the given connections are gone. *)
Definition net_without (gone : list WebSocket) : Net :=
  {| accept_ok := λ ws, bool_decide (ws ∉ gone);
     send_ok := λ ws, bool_decide (ws ∉ gone) |}.

(** ** Requests *)

(** A coordinate outside of [lo, hi]. *)
Definition outside (lo hi : Z) (v : Q) : Prop :=
  (v < inject_Z lo)%Q ∨ (inject_Z hi < v)%Q.

(** A submitted trackpoint or incident with a latitude outside of
    [-90, 90] or a longitude outside of [-180, 180]. *)
Definition out_of_range (req : request) : Prop :=
  match req with
  | POST_location_update point =>
      outside (-90) 90 (Trackpoint.lat point)
      ∨ outside (-180) 180 (Trackpoint.lng point)
  | POST_incidents inc =>
      (∃ v, Incident.lat inc = Some v ∧ outside (-90) 90 v)
      ∨ (∃ v, Incident.lng inc = Some v ∧ outside (-180) 180 v)
  | _ => False
  end.

(** The records of the trackpoint collection. *)
Definition trackpoints (w : World) : list (list (string * pyval)) :=
  match db w with
  | Some d => default [] (collections d !! "trackpoint")
  | None => []
  end.

(** The records of the user collection. *)
Definition users (w : World) : list (list (string * pyval)) :=
  match db w with
  | Some d => default [] (collections d !! "user")
  | None => []
  end.

(** A stored trackpoint of [user_id] stamped [t] by the server. *)
Definition stored_at (user_id : string) (t : datetime) (w : World) : Prop :=
  ∃ record, record ∈ trackpoints w
            ∧ dict_get "user_id" record = Some (VStr user_id)
            ∧ dict_get "server_ts" record = Some (VDatetime t).

(** The trackpoint of the scenario of the specification, with an optional
    client timestamp. *)
Definition sample (ts : option datetime) : Trackpoint.t :=
  {| Trackpoint.user_id := "u1";
     Trackpoint.lat := 129 # 10; Trackpoint.lng := 775 # 10;
     Trackpoint.accuracy := None; Trackpoint.speed := None;
     Trackpoint.heading := None; Trackpoint.battery := None;
     Trackpoint.ts := ts |}.

(** A field of a point that is not [None], as a one-entry dict. *)
Definition given {A} (key : string) (inj : A → pyval) (v : option A)
  : list (string * pyval) :=
  match v with
  | Some x => [(key, inj x)]
  | None => []
  end.

(** The fields of a point that are not [None], in the order of the
    model. *)
Definition non_null (point : Trackpoint.t) : list (string * pyval) :=
  [("user_id", VStr (Trackpoint.user_id point));
   ("lat", VFloat (Trackpoint.lat point)); ("lng", VFloat (Trackpoint.lng point))]
  ++ given "accuracy" VFloat (Trackpoint.accuracy point)
  ++ given "speed" VFloat (Trackpoint.speed point)
  ++ given "heading" VFloat (Trackpoint.heading point)
  ++ given "battery" VFloat (Trackpoint.battery point)
  ++ given "ts" VDatetime (Trackpoint.ts point).

(** The message of the specification for a submitted point: a "track"
    message with the non-null fields of the point, the generated
    identifier and the server time as a string. *)
Definition track_message (point : Trackpoint.t) (new_id server_ts : string)
  : pyval :=
  VDict [("type", VStr "track");
         ("data", VDict (non_null point
                         ++ [("_id", VStr new_id); ("server_ts", VStr server_ts)]))].

(** A field of the text that a viewer receives: present when the field of
    the point is not [None]. *)
Definition present {A} (key : string) (inj : A → json) (v : option A)
  : list (string * json) :=
  match v with
  | Some x => [(key, inj x)]
  | None => []
  end.

(** The fields of a point without client timestamp that are not [None]. *)
Definition non_null_fields (point : Trackpoint.t) : list (string * json) :=
  [("user_id", JStr (Trackpoint.user_id point));
   ("lat", JFloat (Trackpoint.lat point)); ("lng", JFloat (Trackpoint.lng point))]
  ++ present "accuracy" JFloat (Trackpoint.accuracy point)
  ++ present "speed" JFloat (Trackpoint.speed point)
  ++ present "heading" JFloat (Trackpoint.heading point)
  ++ present "battery" JFloat (Trackpoint.battery point).

(** A login request that only names its provider. *)
Definition login_with (provider : string) : MockAuthRequest.t :=
  {| MockAuthRequest.provider := provider; MockAuthRequest.token := None;
     MockAuthRequest.name := None; MockAuthRequest.email := None;
     MockAuthRequest.photo_url := None |}.

(** Library functions for the closed examples: [str] of an identifier or of
    a time, an ISO form, and formats that accept any string. *)
Definition str_of (v : pyval) : string :=
  match v with
  | VObjectId o => "id" +:+ pretty o
  | VDatetime t => "t" +:+ pretty t
  | VStr s => s
  | _ => ""
  end.
Definition iso_of (t : datetime) : string := "T" +:+ pretty t.
Definition any_format (s : string) : bool := true.

Section scenarios.
Variable str : pyval → string.
Variable isoformat : datetime → string.
Variables email_str http_url : string → bool.

(** The service after [n] accepted submissions of the sample point, one
    tick apart, with no viewer. *)
Fixpoint tracked (n : nat) : World :=
  match n with
  | 0 => fresh
  | S n' =>
      elapse 1 (app str isoformat email_str http_url net_up
                  (POST_location_update (sample None)) (tracked n')).2
  end.

(** The service with one viewer, connection 7, on the channel of [u1]. *)
Definition watched : World := (websocket_endpoint str net_up "u1" 7 fresh).2.

End scenarios.


(** ** Stored records *)

(** The records of a collection. *)
Definition records (collection_name : string) (w : World)
  : list (list (string * pyval)) :=
  match db w with
  | Some d => default [] (collections d !! collection_name)
  | None => []
  end.

(** A record with its identifier turned into a string, as the listing
    handlers return it. *)
Definition with_str_id (str : pyval → string) (record : list (string * pyval))
  : list (string * pyval) :=
  match dict_get "_id" record with
  | Some oid => dict_set "_id" (VStr (str oid)) record
  | None => record
  end.

(** Newest first. *)
Definition newest_first (items : list (list (string * pyval))) : Prop :=
  StronglySorted (λ x y, (created_at_key y ≤ created_at_key x)%nat) items.

(** A value that was given, or else its default, as [x or y] reads an
    optional string. *)
Definition given_or (x : option string) (y : string) (stored : pyval) : Prop :=
  ((x = None ∨ x = Some "") ∧ stored = VStr y)
  ∨ (∃ s, x = Some s ∧ s ≠ "" ∧ stored = VStr s).

(** A guardian and a probe of the store for the closed examples. *)
Definition sample_guardian : Guardian.t :=
  {| Guardian.user_id := "u1"; Guardian.name := "Asha";
     Guardian.phone := None; Guardian.email := None;
     Guardian.relationship := Some "sister" |}.
Definition probe_ok (d : Database) : option string := None.


(** A service whose store is not connected. *)
Definition offline : World :=
  {| db := None; clock := 1; active := ConnectionManager.init; wire := [] |}.

(** ** A running service *)



Section running.
Variable str : pyval → string.
Variable isoformat : datetime → string.
Variables email_str http_url : string → bool.




End running.

(** * Properties of the registry *)

Section registry.
Implicit Types (active : gmap string (list WebSocket)) (conns stale : list WebSocket).
Implicit Types (user_id : string) (ws websocket : WebSocket).

Lemma remove_first_notin websocket conns :
  websocket ∉ conns → remove_first websocket conns = conns.
Proof.
  induction conns as [|ws conns IH]; simpl; [done|].
  rewrite not_elem_of_cons. intros [Hne Hnotin].
  destruct (decide (ws = websocket)); [congruence|]. by rewrite IH.
Qed.

Lemma remove_first_perm websocket conns :
  websocket ∈ conns → conns ≡ₚ websocket :: remove_first websocket conns.
Proof.
  induction conns as [|ws conns IH]; simpl.
  - by intros ?%elem_of_nil.
  - destruct (decide (ws = websocket)) as [->|Hne]; [done|].
    rewrite elem_of_cons. intros [->|Hin]; [done|].
    rewrite (IH Hin) at 1. apply Permutation_swap.
Qed.


(** What [disconnect] leaves under its own key, and under the others. *)
Lemma disconnect_lookup user_id websocket active :
  disconnect user_id websocket active !! user_id =
  match remove_first websocket (get user_id active) with
  | [] => None
  | conns => Some conns
  end.
Proof.
  unfold disconnect, get.
  destruct (active !! user_id) as [conns|] eqn:Hlook; simpl.
  - destruct (decide (websocket ∈ conns)) as [Hin|Hnotin].
    + destruct (remove_first websocket conns) as [|ws conns'] eqn:Hrem.
      * rewrite decide_True; [by rewrite lookup_delete_eq|].
        split; [done|]. rewrite lookup_insert_eq. by eexists.
      * rewrite decide_False; [by rewrite lookup_insert_eq|].
        by intros [? _].
    + rewrite (remove_first_notin _ _ Hnotin).
      destruct conns as [|ws conns'].
      * rewrite decide_True; [by rewrite lookup_delete_eq|].
        split; [done|]. rewrite Hlook. by eexists.
      * rewrite decide_False; [done|]. by intros [? _].
  - destruct (decide (websocket ∈ [])) as [?%elem_of_nil|_]; [done|].
    rewrite decide_False; [by rewrite Hlook|].
    rewrite Hlook. by intros [_ [? ?]].
Qed.

Lemma disconnect_lookup_ne user_id user_id' websocket active :
  user_id ≠ user_id' →
  disconnect user_id websocket active !! user_id' = active !! user_id'.
Proof.
  intros Hne. unfold disconnect.
  destruct (decide (websocket ∈ get user_id active));
    case_decide; by rewrite ?lookup_delete_ne, ?lookup_insert_ne.
Qed.

Lemma get_disconnect user_id websocket active :
  get user_id (disconnect user_id websocket active) =
  remove_first websocket (get user_id active).
Proof.
  unfold get at 1. rewrite disconnect_lookup.
  by destruct (remove_first websocket (get user_id active)).
Qed.

Lemma disconnect_not_empty user_id user_id' websocket active :
  active !! user_id' ≠ Some [] →
  disconnect user_id websocket active !! user_id' ≠ Some [].
Proof.
  intros Hne. destruct (decide (user_id = user_id')) as [<-|Hu].
  - rewrite disconnect_lookup.
    by destruct (remove_first websocket (get user_id active)).
  - by rewrite disconnect_lookup_ne.
Qed.

Lemma connect_accepted net user_id websocket active :
  accept_ok net websocket = true →
  connect net user_id websocket active =
  (Ok tt, <[user_id := get user_id active ++ [websocket]]> active).
Proof. unfold connect. by intros ->. Qed.

Lemma connect_refused net user_id websocket active :
  accept_ok net websocket = false →
  connect net user_id websocket active = (Raise ConnectionClosed, active).
Proof. unfold connect. by intros ->. Qed.

Lemma connect_not_empty net user_id user_id' websocket active :
  active !! user_id' ≠ Some [] →
  (connect net user_id websocket active).2 !! user_id' ≠ Some [].
Proof.
  intros Hne. unfold connect. destruct (accept_ok net websocket); simpl; [|done].
  destruct (decide (user_id = user_id')) as [<-|Hu].
  - rewrite lookup_insert_eq. intros [= Happ]. by destruct (get user_id active).
  - by rewrite lookup_insert_ne.
Qed.

(** The two loops of [broadcast]. *)
Lemma broadcast_sends net message conns wire stale :
  foldl (broadcast_step net message) (wire, stale) conns =
  (wire ++ omap (λ ws, match send_message net ws message with
                       | Ok text => Some (ws, text)
                       | Raise _ => None
                       end) conns,
   stale ++ List.filter (λ ws, negb (delivers net message ws)) conns).
Proof.
  revert wire stale. induction conns as [|ws conns IH]; intros wire stale; simpl.
  - by rewrite !app_nil_r.
  - unfold broadcast_step at 2, delivers at 1.
    destruct (send_message net ws message) as [text|e]; simpl;
      rewrite IH; by rewrite <- ?app_assoc.
Qed.

Lemma disconnect_all_lookup_ne user_id user_id' stale active :
  user_id ≠ user_id' →
  foldl (λ active ws, disconnect user_id ws active) active stale !! user_id'
  = active !! user_id'.
Proof.
  intros Hne. revert active. induction stale as [|ws stale IH]; intros active;
    simpl; [done|]. by rewrite IH, disconnect_lookup_ne.
Qed.

Lemma disconnect_all_get user_id stale active :
  get user_id (foldl (λ active ws, disconnect user_id ws active) active stale)
  = foldl (λ conns ws, remove_first ws conns) (get user_id active) stale.
Proof.
  revert active. induction stale as [|ws stale IH]; intros active; simpl; [done|].
  by rewrite IH, get_disconnect.
Qed.

Lemma disconnect_all_not_empty user_id user_id' stale active :
  active !! user_id' ≠ Some [] →
  foldl (λ active ws, disconnect user_id ws active) active stale !! user_id'
  ≠ Some [].
Proof.
  revert active. induction stale as [|ws stale IH]; intros active Hne; simpl;
    [done|]. by apply IH, disconnect_not_empty.
Qed.

(** Removing the connections that failed, one occurrence for each failure,
    leaves the connections that were served. *)
Lemma remove_stale (failed : WebSocket → bool) (served conns : list WebSocket) :
  Forall (λ ws, failed ws = false) served →
  foldl (λ conns ws, remove_first ws conns) (served ++ conns)
    (List.filter failed conns)
  = served ++ List.filter (λ ws, negb (failed ws)) conns.
Proof.
  revert served. induction conns as [|ws conns IH]; intros served Hserved; simpl.
  - done.
  - destruct (failed ws) eqn:Hws; simpl.
    + assert (remove_first ws (served ++ ws :: conns) = served ++ conns) as ->.
      { clear IH. induction served as [|ws' served IHs]; simpl.
        - by rewrite decide_True.
        - inversion_clear Hserved as [|?? Hws' Hrest].
          rewrite decide_False by congruence. by rewrite IHs. }
      by apply IH.
    + rewrite (cons_middle ws served conns), app_assoc, IH.
      * by rewrite <- app_assoc.
      * apply Forall_app. split; [done|]. by apply Forall_singleton.
Qed.

Lemma broadcast_eq net user_id message active wire :
  broadcast net user_id message active wire =
  (Ok tt,
   foldl (λ active ws, disconnect user_id ws active) active
     (List.filter (λ ws, negb (delivers net message ws)) (get user_id active)),
   wire ++ omap (λ ws, match send_message net ws message with
                       | Ok text => Some (ws, text)
                       | Raise _ => None
                       end) (get user_id active)).
Proof. unfold broadcast. by rewrite broadcast_sends. Qed.

(** After [broadcast] the user has the connections that were served. *)
Lemma get_broadcast net user_id message active wire :
  get user_id (broadcast net user_id message active wire).1.2 =
  List.filter (delivers net message) (get user_id active).
Proof.
  rewrite broadcast_eq. simpl. rewrite disconnect_all_get.
  pose proof (remove_stale (λ ws, negb (delivers net message ws)) []
                (get user_id active) (Forall_nil_2 _)) as Hrem.
  simpl in Hrem. rewrite Hrem. clear Hrem.
  induction (get user_id active) as [|ws conns IH]; simpl; [done|].
  rewrite negb_involutive, <- IH. done.
Qed.

End registry.

Section properties.
Implicit Types (active : gmap string (list WebSocket)) (conns stale : list WebSocket).
Implicit Types (user_id : string) (ws websocket : WebSocket).

Lemma registry_inv_alt active :
  registry_inv active ↔ ∀ user_id, active !! user_id ≠ Some [].
Proof.
  split.
  - intros Hinv user_id Hlook. by apply (Hinv _ _ Hlook).
  - intros Hne user_id conns Hlook ->. by apply (Hne user_id).
Qed.

Lemma registry_inv_init : registry_inv init.
Proof. intros user_id conns. unfold init. by rewrite lookup_empty. Qed.

Lemma step_inv st o : registry_inv st.1 → registry_inv (step st o).1.
Proof.
  rewrite !registry_inv_alt. intros Hinv user_id'.
  destruct o as [net user_id ws|user_id ws|net user_id message]; simpl.
  - by apply connect_not_empty.
  - by apply disconnect_not_empty.
  - pose proof (broadcast_eq net user_id message st.1 st.2) as Heq.
    destruct (broadcast net user_id message st.1 st.2) as [[r a] wi].
    injection Heq as _ -> _. simpl. by apply disconnect_all_not_empty.
Qed.

Lemma run_inv ops st : registry_inv st.1 → registry_inv (run ops st).1.
Proof.
  unfold run. revert st. induction ops as [|o ops IH]; intros st Hinv; simpl;
    [done|]. by apply IH, step_inv.
Qed.

Lemma disconnect_absent user_id websocket active :
  registry_inv active → websocket ∉ get user_id active →
  disconnect user_id websocket active = active.
Proof.
  intros Hinv Hnotin. apply map_eq. intros user_id'.
  destruct (decide (user_id = user_id')) as [<-|Hne].
  - rewrite disconnect_lookup, (remove_first_notin _ _ Hnotin). unfold get.
    destruct (active !! user_id) as [[|ws conns]|] eqn:Hlook; simpl; try done.
    by destruct (Hinv _ _ Hlook).
  - by apply disconnect_lookup_ne.
Qed.

Lemma remove_all (closed opened : list WebSocket) :
  closed ≡ₚ opened →
  foldl (λ conns ws, remove_first ws conns) opened closed = [].
Proof.
  revert opened. induction closed as [|ws closed IH]; intros opened Hperm; simpl.
  - symmetry. by apply Permutation_nil_l.
  - apply IH. apply (Permutation_cons_inv (a := ws)).
    rewrite Hperm. apply remove_first_perm. rewrite <- Hperm. by left.
Qed.

Lemma connect_all_opened net user_id (opened : list WebSocket) active :
  Forall (λ ws, accept_ok net ws = true) opened →
  get user_id (foldl (λ a ws, (connect net user_id ws a).2) active opened)
  = get user_id active ++ opened
  ∧ ∀ user_id', user_id ≠ user_id' →
      foldl (λ a ws, (connect net user_id ws a).2) active opened !! user_id'
      = active !! user_id'.
Proof.
  revert active. induction opened as [|ws opened IH]; intros active Hacc; simpl.
  - by rewrite app_nil_r.
  - inversion_clear Hacc as [|?? Hws Hrest].
    destruct (IH (connect net user_id ws active).2 Hrest) as [Hget Hother].
    split.
    + rewrite Hget, (connect_accepted _ _ _ _ Hws). simpl.
      unfold get at 1. rewrite lookup_insert_eq. simpl. by rewrite <- app_assoc.
    + intros user_id' Hne. rewrite (Hother _ Hne), (connect_accepted _ _ _ _ Hws).
      simpl. by rewrite lookup_insert_ne.
Qed.

End properties.

Section claims.
Implicit Types (active : gmap string (list WebSocket)) (conns stale : list WebSocket).
Implicit Types (user_id : string) (ws websocket healthy dead : WebSocket).

Lemma delivers_Ok net message ws :
  delivers net message ws = true ↔ ∃ text, send_message net ws message = Ok text.
Proof.
  unfold delivers. destruct (send_message net ws message); split;
    try done; eauto. by intros [? ?].
Qed.

Lemma elem_of_delivered net message ws text conns :
  (ws, text) ∈ omap (λ ws, match send_message net ws message with
                           | Ok text => Some (ws, text)
                           | Raise _ => None
                           end) conns
  ↔ ws ∈ conns ∧ send_message net ws message = Ok text.
Proof.
  rewrite list_elem_of_omap. split.
  - intros (ws' & Hin & Hsend).
    destruct (send_message net ws' message) eqn:Heq; [|done].
    injection Hsend as -> ->. done.
  - intros [Hin Hsend]. exists ws. by rewrite Hsend.
Qed.

(** C1. When a user has a connection to which the send of [broadcast]
    succeeds and one to which it raises, [broadcast] returns without an
    error, the first connection has received the text of the message and
    stays registered, the second has received nothing and is not
    registered any more, and the other users are as they were. *)
Theorem broadcast_healthy_and_dead net user_id message text active wire
    healthy dead :
  healthy ∈ get user_id active →
  dead ∈ get user_id active →
  send_message net healthy message = Ok text →
  (∃ e, send_message net dead message = Raise e) →
  ∃ active' delivered,
    broadcast net user_id message active wire = (Ok tt, active', wire ++ delivered)
    ∧ (healthy, text) ∈ delivered
    ∧ (∀ t, (dead, t) ∉ delivered)
    ∧ healthy ∈ get user_id active'
    ∧ (dead ∉ get user_id active')
    ∧ (∀ user_id', user_id' ≠ user_id → active' !! user_id' = active !! user_id').
Proof.
  intros Hhealthy Hdead Hsend [e Hfail].
  pose proof (get_broadcast net user_id message active wire) as Hget.
  rewrite broadcast_eq in Hget |- *. simpl in Hget.
  eexists _, _. split; [reflexivity|]. rewrite Hget.
  split; [by apply elem_of_delivered|].
  split; [intros t [_ Ht]%elem_of_delivered; congruence|].
  split; [|split].
  - apply list_elem_of_In, filter_In. split; [by apply list_elem_of_In|].
    apply delivers_Ok. eauto.
  - intros [_ [t Ht]%delivers_Ok]%list_elem_of_In%filter_In. congruence.
  - intros user_id' Hne. by apply disconnect_all_lookup_ne.
Qed.



(** So the registry would list a connection twice if its handshake could
    complete twice; it is [accept] that rules this out. *)
Lemma connect_twice_registered_twice :
  get "u1" (connect_all [(net_up, "u1", 7); (net_up, "u1", 7)] init) = [7; 7]
  ∧ ¬ (count_occ Nat.eq_dec
         (get "u1" (connect_all [(net_up, "u1", 7); (net_up, "u1", 7)] init)) 7
       ≤ 1)%nat.
Proof. split; [by vm_compute|]. vm_compute. lia. Qed.



(** C3. When connections are opened for a user who has no entry and then
    all are closed, in any order, the registry is what it was before, with
    no entry for the user; closing the only connection of a user removes
    the entry; and in a registry that the operations have built, closing
    a connection that is not listed changes nothing. *)
Theorem disconnect_cleans_up :
  (∀ net user_id (opened closed : list WebSocket) active,
     active !! user_id = None →
     Forall (λ ws, accept_ok net ws = true) opened →
     closed ≡ₚ opened →
     foldl (λ a ws, disconnect user_id ws a)
       (foldl (λ a ws, (connect net user_id ws a).2) active opened) closed
     = active)
  ∧ (∀ user_id websocket active,
       active !! user_id = Some [websocket] →
       disconnect user_id websocket active !! user_id = None)
  ∧ (∀ ops user_id websocket,
       websocket ∉ get user_id (run ops (init, [])).1 →
       disconnect user_id websocket (run ops (init, [])).1
       = (run ops (init, [])).1).
Proof.
  split; [|split].
  - intros net user_id opened closed active Hnone Hacc Hperm.
    destruct (connect_all_opened net user_id opened active Hacc) as [Hget Hother].
    apply map_eq. intros user_id'.
    destruct (decide (user_id = user_id')) as [<-|Hne].
    + rewrite Hnone.
      pose proof (disconnect_all_get user_id closed
                    (foldl (λ a ws, (connect net user_id ws a).2) active opened))
        as Hrem.
      rewrite Hget in Hrem. unfold get at 2 in Hrem. rewrite Hnone in Hrem.
      simpl in Hrem. rewrite (remove_all _ _ Hperm) in Hrem.
      destruct closed as [|ws closed].
      * apply Permutation_nil_l in Hperm. subst opened. simpl. done.
      * unfold get in Hrem. simpl in *.
        pose proof (disconnect_all_not_empty user_id user_id closed
          (disconnect user_id ws
            (foldl (λ a ws, (connect net user_id ws a).2) active opened))) as Hne.
        destruct (foldl _ _ closed !! user_id) as [conns|]; [|done].
        simpl in Hrem. subst conns. exfalso. apply Hne; [|done].
        rewrite disconnect_lookup. by destruct (remove_first _ _).
    + by rewrite disconnect_all_lookup_ne, Hother.
  - intros user_id websocket active Hlook. rewrite disconnect_lookup.
    unfold get. rewrite Hlook. simpl. by rewrite decide_True.
  - intros ops user_id websocket Hnotin. apply disconnect_absent; [|done].
    apply run_inv, registry_inv_init.
Qed.

(** C9. No sequence of [connect], [disconnect] and [broadcast] leaves a
    user with an empty list of connections. *)
Theorem registry_never_holds_empty_entry ops st :
  registry_inv st.1 → registry_inv (run ops st).1.
Proof. apply run_inv. Qed.

End claims.

(** * Properties of the requests *)

Section sorting_facts.
Context {A : Type} (key : A → nat).

Lemma insert_desc_perm (x : A) (l : list A) : insert_desc key x l ≡ₚ x :: l.
Proof.
  induction l as [|y l IH]; simpl; [done|].
  destruct (key x <? key y)%nat; [|done].
  rewrite IH. apply Permutation_swap.
Qed.

Lemma sort_desc_perm (l : list A) : sort_desc key l ≡ₚ l.
Proof.
  induction l as [|x l IH]; simpl; [done|].
  by rewrite insert_desc_perm, IH.
Qed.


End sorting_facts.


Section tracking_facts.
Variable str : pyval → string.
Variable isoformat : datetime → string.
Variables email_str http_url : string → bool.

Lemma track_payload (point : Trackpoint.t) (new_id iso : string) :
  dict_set "server_ts" (VStr iso)
    (dict_set "_id" (VStr new_id) (dict_drop_none (Trackpoint.model_dump point)))
  = non_null point ++ [("_id", VStr new_id); ("server_ts", VStr iso)].
Proof.
  destruct point as [user_id lat lng accuracy speed heading battery ts].
  destruct accuracy, speed, heading, battery, ts; vm_compute; reflexivity.
Qed.

Lemma json_dumps_track (point : Trackpoint.t) (new_id iso : string) :
  Trackpoint.ts point = None →
  json_dumps None
    (VDict [("type", VStr "track");
            ("data", VDict
               (dict_set "server_ts" (VStr iso)
                  (dict_set "_id" (VStr new_id)
                     (dict_drop_none (Trackpoint.model_dump point)))))])
  = Some (JObject
            [("type", JStr "track");
             ("data", JObject (non_null_fields point
                               ++ [("_id", JStr new_id); ("server_ts", JStr iso)]))]).
Proof.
  destruct point as [user_id lat lng accuracy speed heading battery ts]. simpl.
  intros ->. unfold non_null_fields.
  destruct accuracy, speed, heading, battery; reflexivity.
Qed.

Lemma delivered_text net message text (conns : list WebSocket) :
  json_dumps None message = Some text →
  omap (λ ws, match send_message net ws message with
              | Ok text => Some (ws, text)
              | Raise _ => None
              end) conns
  = (λ ws, (ws, text)) <$> List.filter (send_ok net) conns.
Proof.
  intros Hdumps. induction conns as [|ws conns IH]; [done|].
  cbn [omap list_omap List.filter]. rewrite IH.
  unfold send_message. rewrite Hdumps. by destruct (send_ok net ws).
Qed.

(** X13. What [location_update] does for a point without client timestamp,
    with the store connected: the record is stored, every viewer of the
    user that can be reached receives the non-null fields of the point with
    the identifier and the ISO form of the server time, and the identifier
    is returned. *)
Lemma location_update_delivers net point w d :
  db w = Some d →
  Trackpoint.ts point = None →
  let new_id := str (VObjectId (next_id d)) in
  let text :=
    JObject [("type", JStr "track");
             ("data", JObject (non_null_fields point
                               ++ [("_id", JStr new_id);
                                   ("server_ts", JStr (isoformat (clock w)))]))] in
  ∃ w', location_update str isoformat net point w
        = (Ok [("trackpoint_id", VStr new_id)], w')
        ∧ wire w' = wire w ++ ((λ ws, (ws, text))
                               <$> List.filter (send_ok net)
                                     (get (Trackpoint.user_id point) (active w)))
        ∧ get (Trackpoint.user_id point) (active w')
          = List.filter (send_ok net) (get (Trackpoint.user_id point) (active w))
        ∧ length (trackpoints w') = S (length (trackpoints w)).
Proof.
  intros Hdb Hts new_id text.
  pose proof (json_dumps_track point new_id (isoformat (clock w)) Hts) as Hdumps.
  fold text in Hdumps.
  set (message := VDict _) in Hdumps.
  pose proof (get_broadcast net (Trackpoint.user_id point) message
                (active w) (wire w)) as Hget.
  pose proof (broadcast_eq net (Trackpoint.user_id point) message
                (active w) (wire w)) as Heq.
  rewrite (delivered_text _ _ _ _ Hdumps) in Heq.
  unfold location_update, bind, datetime_now, create_document, ws_broadcast, ret.
  rewrite Hdb. cbn [fst snd active wire set_db clock].
  fold new_id. fold message.
  destruct (broadcast net (Trackpoint.user_id point) message (active w) (wire w))
    as [[r a] wi].
  injection Heq as -> Ha ->. cbn [fst snd] in Hget.
  eexists. split; [reflexivity|]. cbn [wire active set_manager].
  split; [done|]. split.
  - rewrite Hget. apply filter_ext_in_iff. intros ws _.
    unfold delivers, send_message. rewrite Hdumps. by destruct (send_ok net ws).
  - unfold trackpoints, set_manager, set_db. cbn [db]. rewrite Hdb.
    cbn [collections]. rewrite lookup_insert_eq. cbn [default].
    unfold id. rewrite length_app. cbn [length]. lia.
Qed.

(** X11. With no stored trackpoint of the user, [location_last] answers
    null. *)
Lemma location_last_no_history user_id w d :
  db w = Some d →
  List.filter (matches [("user_id", user_id)]) (trackpoints w) = [] →
  location_last str user_id w = (Ok [("latest", VNone)], w).
Proof.
  intros Hdb Hnone. unfold trackpoints in Hnone. rewrite Hdb in Hnone.
  unfold location_last, bind, get_documents. rewrite Hdb, Hnone.
  by rewrite take_nil.
Qed.

(** X9. With no stored trackpoint of the user, a new connection is sent
    nothing. *)
Lemma websocket_endpoint_no_history net user_id websocket w :
  List.filter (matches [("user_id", user_id)]) (trackpoints w) = [] →
  wire (websocket_endpoint str net user_id websocket w).2 = wire w.
Proof.
  intros Hnone. unfold trackpoints in Hnone.
  unfold websocket_endpoint, bind, manager_connect, try_except, get_documents,
    connect, ret.
  destruct (accept_ok net websocket); cbn [fst snd set_manager db]; [|done].
  destruct (db w) as [d|]; [|done].
  rewrite Hnone. by rewrite take_nil.
Qed.


End tracking_facts.

Section requests.
Variable str : pyval → string.
Variable isoformat : datetime → string.
Variables email_str http_url : string → bool.

Lemma ge_below (bound : Z) (v : Q) :
  (v < inject_Z bound)%Q → ge (inject_Z bound) v = false.
Proof.
  intros Hlt. unfold ge. apply not_true_is_false.
  rewrite Qle_bool_iff. by apply Qlt_not_le.
Qed.

Lemma le_above (bound : Z) (v : Q) :
  (inject_Z bound < v)%Q → le (inject_Z bound) v = false.
Proof.
  intros Hlt. unfold le. apply not_true_is_false.
  rewrite Qle_bool_iff. by apply Qlt_not_le.
Qed.

Lemma outside_refused (lo hi : Z) (v : Q) :
  outside lo hi v → ge (inject_Z lo) v && le (inject_Z hi) v = false.
Proof.
  intros [Hlo|Hhi].
  - by rewrite (ge_below _ _ Hlo).
  - by rewrite (le_above _ _ Hhi), andb_false_r.
Qed.

Lemma Trackpoint_out_of_range point :
  outside (-90) 90 (Trackpoint.lat point)
  ∨ outside (-180) 180 (Trackpoint.lng point) →
  Trackpoint.valid point = false.
Proof.
  unfold Trackpoint.valid. intros [H|H]; apply outside_refused in H.
  - by rewrite H.
  - by rewrite <- (andb_assoc _ (ge _ (Trackpoint.lng point))), H, andb_false_r.
Qed.

Lemma Incident_out_of_range inc :
  (∃ v, Incident.lat inc = Some v ∧ outside (-90) 90 v)
  ∨ (∃ v, Incident.lng inc = Some v ∧ outside (-180) 180 v) →
  Incident.valid http_url inc = false.
Proof.
  unfold Incident.valid.
  intros [(v & -> & H)|(v & -> & H)]; apply outside_refused in H; simpl;
    by rewrite H, ?andb_false_r.
Qed.

(** C4. A submitted trackpoint, or an incident, with a latitude outside of
    [-90, 90] or a longitude outside of [-180, 180] is answered with a
    validation error and the state of the service is unchanged: no record
    is stored, no identifier is drawn, nothing is sent to a viewer. *)
Theorem out_of_range_rejected net req w :
  out_of_range req →
  app str isoformat email_str http_url net req w = (Raise RequestValidationError, w).
Proof.
  destruct req as [payload|point|user_id|inc]; simpl; try done.
  - intros H. by rewrite (Trackpoint_out_of_range _ H).
  - intros H. by rewrite (Incident_out_of_range _ H).
Qed.

(** The message that [location_update] hands to [broadcast].  For every
    valid trackpoint submitted while the store is connected, the request
    returns the generated identifier, the record is stored with the server
    time, and the registry and the viewers are left as [broadcast] leaves
    them for the "track" message made of the non-null fields of the point,
    the generated identifier and the ISO form of the server time.  What
    the viewers then receive depends on whether [json.dumps] accepts that
    message, which the lemmas on delivery below settle. *)
Lemma location_update_broadcasts_payload net point w d :
  Trackpoint.valid point = true →
  db w = Some d →
  let new_id := str (VObjectId (next_id d)) in
  ∃ w' record,
    app str isoformat email_str http_url net (POST_location_update point) w
    = (Ok [("trackpoint_id", VStr new_id)], w')
    ∧ broadcast net (Trackpoint.user_id point)
        (track_message point new_id (isoformat (clock w))) (active w) (wire w)
      = (Ok tt, active w', wire w')
    ∧ trackpoints w' = trackpoints w ++ [record]
    ∧ dict_get "_id" record = Some (VObjectId (next_id d))
    ∧ dict_get "server_ts" record = Some (VDatetime (clock w)).
Proof.
  intros Hvalid Hdb new_id. unfold app. rewrite Hvalid.
  unfold location_update, bind, datetime_now, create_document, ws_broadcast, ret.
  rewrite Hdb. cbn [fst snd active wire set_db clock]. fold new_id.
  rewrite track_payload. fold (track_message point new_id (isoformat (clock w))).
  pose proof (broadcast_eq net (Trackpoint.user_id point)
                (track_message point new_id (isoformat (clock w)))
                (active w) (wire w)) as Heq.
  destruct (broadcast net (Trackpoint.user_id point)
              (track_message point new_id (isoformat (clock w)))
              (active w) (wire w)) as [[r a] wi].
  injection Heq as -> _ _.
  eexists _, _. split; [reflexivity|]. cbn [wire active set_manager].
  split; [reflexivity|]. split; [|split].
  - unfold trackpoints, set_manager, set_db. cbn [db]. rewrite Hdb.
    cbn [collections]. rewrite lookup_insert_eq. reflexivity.
  - reflexivity.
  - destruct point as [user_id lat lng accuracy speed heading battery ts].
    vm_compute. reflexivity.
Qed.
(** C8 (amended). A login whose provider, once lowercased, is not one of
    google, microsoft, apple and mock is refused with the error 400
    "Unsupported provider" and the state of the service, its user records
    included, is unchanged. *)
Theorem unsupported_provider_rejected payload w :
  lower (MockAuthRequest.provider payload) ∉ providers →
  mock_login str email_str http_url payload w
  = (Raise (HTTPException 400 "Unsupported provider"), w).
Proof.
  intros Hnotin. unfold mock_login. by rewrite bool_decide_eq_true_2.
Qed.

(** C10. The provider is lowercased before it is looked up: a login whose
    lowercased provider is one of the four is not refused for its
    provider; when the new user record is valid and the store is
    connected, the response and the stored user record carry the
    lowercased provider, and otherwise the request fails with the state
    unchanged. *)
Theorem mock_login_case_insensitive payload w :
  lower (MockAuthRequest.provider payload) ∈ providers →
  let provider := lower (MockAuthRequest.provider payload) in
  let email := str_or (MockAuthRequest.email payload)
                 ("user-" +:+ provider +:+ "@safeshe.app") in
  if email_str email && optional http_url (MockAuthRequest.photo_url payload)
  then
    match db w with
    | Some d =>
        ∃ w' record,
          mock_login str email_str http_url payload w
          = (Ok [("user_id", VStr (str (VObjectId (next_id d))));
                 ("provider", VStr provider)], w')
          ∧ users w' = users w ++ [record]
          ∧ dict_get "provider" record = Some (VStr provider)
    | None =>
        mock_login str email_str http_url payload w = (Raise DatabaseUnavailable, w)
    end
  else mock_login str email_str http_url payload w = (Raise ValidationError, w).
Proof.
  intros Hin provider email. unfold mock_login.
  rewrite bool_decide_eq_false_2 by (by intros Hnotin).
  fold provider. unfold bind, new_User, User.valid, create_document, ret, raise, users.
  simpl. fold email.
  destruct (email_str email && optional http_url (MockAuthRequest.photo_url payload));
    [|done].
  destruct (db w) as [d|]; [|done].
  eexists _, _. split; [reflexivity|]. simpl.
  rewrite lookup_insert_eq. simpl. split; reflexivity.
Qed.

End requests.

Section tracking.
Variable str : pyval → string.
Variable isoformat : datetime → string.
Variables email_str http_url : string → bool.

(** C5 (the code at a failing input). After 51 submissions for [u1] the
    newest stored trackpoint is stamped 51, and [GET /location/last]
    answers with the one stamped 50: the query stops at fifty records
    before the sort. *)
Theorem location_last_misses_newest :
  stored_at "u1" 51 (tracked str isoformat email_str http_url 51)
  ∧ app str isoformat email_str http_url net_up (GET_location_last "u1") (tracked str isoformat email_str http_url 51)
    = (Ok [("latest",
            VDict [("_id", VStr (str (VObjectId 49))); ("user_id", VStr "u1");
                   ("lat", VFloat (129 # 10)); ("lng", VFloat (775 # 10));
                   ("accuracy", VNone); ("speed", VNone); ("heading", VNone);
                   ("battery", VNone); ("ts", VNone);
                   ("server_ts", VDatetime 50); ("created_at", VDatetime 50)])],
       tracked str isoformat email_str http_url 51).
Proof.
  split.
  - eexists. split; [|split].
    + apply list_elem_of_lookup. exists 50. vm_compute. reflexivity.
    + reflexivity.
    + reflexivity.
  - vm_compute. reflexivity.
Qed.

(** C6 (the code at a failing input). With two stored trackpoints for
    [u1], stamped 1 and 2, a new connection is sent the one stamped 1: the
    query stops at one record before the sort. *)
Theorem websocket_endpoint_sends_oldest :
  stored_at "u1" 2 (tracked str isoformat email_str http_url 2)
  ∧ wire (websocket_endpoint str net_up "u1" 7 (tracked str isoformat email_str http_url 2)).2
    = [(7, JObject
             [("type", JStr "last");
              ("data",
               JObject
                 [("_id", JStr (str (VObjectId 0))); ("user_id", JStr "u1");
                  ("lat", JFloat (129 # 10)); ("lng", JFloat (775 # 10));
                  ("accuracy", JNull); ("speed", JNull); ("heading", JNull);
                  ("battery", JNull); ("ts", JNull);
                  ("server_ts", JStr (str (VDatetime 1)));
                  ("created_at", JStr (str (VDatetime 1)))])])].
Proof.
  split.
  - eexists. split; [|split].
    + apply list_elem_of_lookup. exists 1. vm_compute. reflexivity.
    + reflexivity.
    + reflexivity.
  - vm_compute. reflexivity.
Qed.

(** C7 (the code at a failing input). A valid trackpoint that carries a
    client timestamp is stored and its identifier returned, but the
    reachable viewer of [u1] receives no "track" message and is dropped
    from the registry: the payload keeps the timestamp as a [datetime],
    and [json.dumps] raises on it inside the [try] of [broadcast], for
    every connection. *)
Lemma client_timestamp_drops_viewers :
  Trackpoint.valid (sample (Some 5)) = true
  ∧ get "u1" (active (watched str)) = [7]
  ∧ ∃ w', app str isoformat email_str http_url net_up (POST_location_update (sample (Some 5))) (watched str)
          = (Ok [("trackpoint_id", VStr (str (VObjectId 0)))], w')
          ∧ wire w' = []
          ∧ active w' !! "u1" = None
          ∧ length (trackpoints w') = 1.
Proof.
  split; [by vm_compute|]. split; [by vm_compute|].
  eexists. split; [vm_compute; reflexivity|]. by vm_compute.
Qed.

End tracking.

(** C8 (counterexample). The provider [Google] is not one of the four
    names, and the login is accepted and a user record is stored. *)
Lemma mixed_case_provider_accepted :
  ("Google" ∉ providers)
  ∧ ∃ w', mock_login str_of any_format any_format (login_with "Google") fresh
          = (Ok [("user_id", VStr "id0"); ("provider", VStr "google")], w')
          ∧ length (users w') = 1.
Proof.
  split.
  - unfold providers. intros H. repeat (apply elem_of_cons in H as [H|H]; [done|]).
    by apply elem_of_nil in H.
  - eexists. split; [by vm_compute|]. by vm_compute.
Qed.

(** * The properties at concrete inputs *)

(** C1 at a concrete input: [u1] is watched by connection 1, which can be
    reached, and by connection 2, which is gone. *)
Lemma broadcast_healthy_and_dead_witness :
  ∃ active' delivered,
    broadcast (net_without [2]) "u1" (VDict [("type", VStr "track")])
      {["u1" := [1; 2]]} []
    = (Ok tt, active', [] ++ delivered)
    ∧ (1, JObject [("type", JStr "track")]) ∈ delivered
    ∧ (∀ t, (2, t) ∉ delivered)
    ∧ 1 ∈ get "u1" active'
    ∧ (2 ∉ get "u1" active')
    ∧ (∀ user_id', user_id' ≠ "u1" →
         active' !! user_id' = ({["u1" := [1; 2]]} : gmap string (list nat)) !! user_id').
Proof.
  apply (broadcast_healthy_and_dead (net_without [2]) "u1"
           (VDict [("type", VStr "track")]) (JObject [("type", JStr "track")])
           {["u1" := [1; 2]]} [] 1 2).
  - vm_compute. apply list_elem_of_here.
  - vm_compute. apply list_elem_of_further, list_elem_of_here.
  - vm_compute. reflexivity.
  - exists ConnectionClosed. vm_compute. reflexivity.
Defined.

(** C3 at a concrete input: three connections opened for [u1] and closed
    in another order. *)
Lemma disconnect_cleans_up_witness :
  foldl (λ a ws, disconnect "u1" ws a)
    (foldl (λ a ws, (connect net_up "u1" ws a).2) init [1; 2; 3]) [2; 3; 1]
  = init.
Proof.
  apply (proj1 disconnect_cleans_up net_up "u1" [1; 2; 3] [2; 3; 1] init).
  - vm_compute. reflexivity.
  - repeat constructor.
  - symmetry. apply (Permutation_cons_app [2; 3] [] 1). simpl. reflexivity.
Defined.

(** C9 at a concrete input: the invariant of the empty registry after a
    connection, a broadcast that finds it gone, and a disconnection. *)
Lemma registry_never_holds_empty_entry_witness :
  registry_inv
    (run [Connect net_up "u1" 1; Broadcast (net_without [1]) "u1" (VStr "ping");
          Disconnect "u1" 1] (init, [])).1.
Proof.
  apply (registry_never_holds_empty_entry
           [Connect net_up "u1" 1; Broadcast (net_without [1]) "u1" (VStr "ping");
            Disconnect "u1" 1] (init, [])).
  intros user_id conns. vm_compute. intros Hlook. discriminate Hlook.
Defined.

(** C4 at a concrete input: a trackpoint with latitude 91. *)
Lemma out_of_range_rejected_witness :
  app str_of iso_of any_format any_format net_up
    (POST_location_update
       {| Trackpoint.user_id := "u1";
          Trackpoint.lat := 91 # 1; Trackpoint.lng := 775 # 10;
          Trackpoint.accuracy := None; Trackpoint.speed := None;
          Trackpoint.heading := None; Trackpoint.battery := None;
          Trackpoint.ts := None |}) fresh
  = (Raise RequestValidationError, fresh).
Proof.
  apply out_of_range_rejected. left. right. vm_compute. reflexivity.
Defined.

(** C8 at a concrete input: the provider [slack]. *)
Lemma unsupported_provider_rejected_witness :
  mock_login str_of any_format any_format (login_with "slack") fresh
  = (Raise (HTTPException 400 "Unsupported provider"), fresh).
Proof.
  apply unsupported_provider_rejected.
  apply (bool_decide_unpack _). vm_compute. exact I.
Defined.

(** C10 at a concrete input: the provider [APPLE]. *)
Lemma mock_login_case_insensitive_witness :
  ∃ w' record,
    mock_login str_of any_format any_format (login_with "APPLE") fresh
    = (Ok [("user_id", VStr (str_of (VObjectId 0))); ("provider", VStr "apple")], w')
    ∧ users w' = users fresh ++ [record]
    ∧ dict_get "provider" record = Some (VStr "apple").
Proof.
  apply (mock_login_case_insensitive str_of any_format any_format
           (login_with "APPLE") fresh).
  apply (bool_decide_unpack _). vm_compute. exact I.
Defined.


(** * Further properties of the code *)

Section registry_extras.
Implicit Types (active : gmap string (list WebSocket)) (conns stale : list WebSocket).
Implicit Types (user_id : string) (ws websocket : WebSocket).

Lemma filter_all (P : WebSocket → bool) conns :
  Forall (λ ws, P ws = true) conns → List.filter (λ ws, negb (P ws)) conns = [].
Proof.
  induction 1 as [|ws conns Hws _ IH]; simpl; [done|]. by rewrite Hws.
Qed.

Lemma filter_none (P : WebSocket → bool) conns :
  (∀ ws, P ws = false) → List.filter P conns = [].
Proof.
  intros Hnone. induction conns as [|ws conns IH]; simpl; [done|].
  by rewrite Hnone.
Qed.

(** X1. A broadcast in which no send fails leaves the registry exactly as
    it was, and a broadcast to a user without connection changes neither
    the registry nor what the peers have received. *)
Theorem broadcast_without_failure_keeps_registry :
  (∀ net user_id message active wire,
     Forall (λ ws, delivers net message ws = true) (get user_id active) →
     (broadcast net user_id message active wire).1.2 = active)
  ∧ (∀ net user_id message active wire,
       get user_id active = [] →
       broadcast net user_id message active wire = (Ok tt, active, wire)).
Proof.
  split.
  - intros net user_id message active wire Hall.
    rewrite broadcast_eq. simpl. by rewrite (filter_all _ _ Hall).
  - intros net user_id message active wire Hnone.
    rewrite broadcast_eq, Hnone. simpl. by rewrite app_nil_r.
Qed.

(** X2. For a message that [json.dumps] accepts, [broadcast] sends its
    text once to each registered connection of the user that can be
    reached, in the order of registration, keeps exactly those
    connections for the user, and leaves the other users alone. *)
Theorem broadcast_serves_reachable net user_id message text active wire :
  json_dumps None message = Some text →
  ∃ active',
    broadcast net user_id message active wire
    = (Ok tt, active',
       wire ++ ((λ ws, (ws, text)) <$> List.filter (send_ok net) (get user_id active)))
    ∧ get user_id active' = List.filter (send_ok net) (get user_id active)
    ∧ ∀ user_id', user_id' ≠ user_id → active' !! user_id' = active !! user_id'.
Proof.
  intros Hdumps.
  pose proof (get_broadcast net user_id message active wire) as Hget.
  rewrite broadcast_eq in Hget |- *. cbn [fst snd] in Hget.
  eexists. split; [|split].
  - by rewrite (delivered_text _ _ _ _ Hdumps).
  - rewrite Hget. apply filter_ext_in_iff. intros ws _.
    unfold delivers, send_message. rewrite Hdumps. by destruct (send_ok net ws).
  - intros user_id' Hne. by apply disconnect_all_lookup_ne.
Qed.

Lemma nothing_delivered net message conns :
  json_dumps None message = None →
  omap (λ ws, match send_message net ws message with
              | Ok text => Some (ws, text)
              | Raise _ => None
              end) conns = [].
Proof.
  intros Hdumps. induction conns as [|ws conns IH]; [done|].
  cbn [omap list_omap]. unfold send_message at 1. rewrite Hdumps. exact IH.
Qed.

(** X3. For a message that [json.dumps] refuses, [broadcast] still
    returns, sends nothing, and removes the whole entry of the user: every
    connection counts as failed. *)
Theorem broadcast_unserialisable_drops_all net user_id message active wire :
  registry_inv active →
  json_dumps None message = None →
  broadcast net user_id message active wire = (Ok tt, delete user_id active, wire).
Proof.
  intros Hinv Hdumps.
  assert (∀ ws, delivers net message ws = false) as Hfail.
  { intros ws. unfold delivers, send_message. by rewrite Hdumps. }
  pose proof (get_broadcast net user_id message active wire) as Hget.
  rewrite broadcast_eq in Hget |- *. cbn [fst snd] in Hget.
  rewrite (filter_none _ _ Hfail) in Hget.
  f_equal; [f_equal|].
  - apply map_eq. intros user_id'.
    destruct (decide (user_id = user_id')) as [<-|Hne].
    + rewrite lookup_delete_eq.
      pose proof (disconnect_all_not_empty user_id user_id
        (List.filter (λ ws, negb (delivers net message ws)) (get user_id active))
        active) as Hne.
      unfold get in Hget at 1.
      destruct (foldl _ active _ !! user_id) as [conns|]; [|done].
      simpl in Hget. subst conns. exfalso. apply Hne; [|done].
      by apply registry_inv_alt.
    + by rewrite disconnect_all_lookup_ne, lookup_delete_ne.
  - by rewrite (nothing_delivered _ _ _ Hdumps), app_nil_r.
Qed.

Lemma count_occ_remove_first conns ws ws' :
  count_occ Nat.eq_dec (remove_first ws conns) ws'
  = if decide (ws' = ws) then pred (count_occ Nat.eq_dec conns ws')
    else count_occ Nat.eq_dec conns ws'.
Proof.
  induction conns as [|x conns IH]; simpl.
  - by destruct (decide (ws' = ws)).
  - destruct (decide (x = ws)) as [->|Hx].
    + destruct (Nat.eq_dec ws ws') as [<-|Hne];
        destruct (decide (_ = ws)); simpl; congruence.
    + simpl. rewrite IH.
      destruct (Nat.eq_dec x ws') as [<-|Hne];
        destruct (decide (_ = ws)); simpl; congruence.
Qed.

(** X4. [disconnect] removes one registration of the connection, not all
    of them: the number of times it is listed for the user goes down by
    one (and stays zero), the other connections and users are as they
    were. *)
Theorem disconnect_removes_one_registration user_id websocket active :
  count_occ Nat.eq_dec (get user_id (disconnect user_id websocket active)) websocket
  = pred (count_occ Nat.eq_dec (get user_id active) websocket)
  ∧ (∀ ws, ws ≠ websocket →
       count_occ Nat.eq_dec (get user_id (disconnect user_id websocket active)) ws
       = count_occ Nat.eq_dec (get user_id active) ws)
  ∧ (∀ user_id', user_id' ≠ user_id →
       disconnect user_id websocket active !! user_id' = active !! user_id').
Proof.
  rewrite get_disconnect. split; [|split].
  - by rewrite count_occ_remove_first, decide_True.
  - intros ws Hne. by rewrite count_occ_remove_first, decide_False.
  - intros user_id' Hne. by apply disconnect_lookup_ne.
Qed.

Lemma remove_first_snoc conns ws :
  ws ∉ conns → remove_first ws (conns ++ [ws]) = conns.
Proof.
  induction conns as [|x conns IH]; simpl.
  - intros _. by rewrite decide_True.
  - rewrite not_elem_of_cons. intros [Hne Hnotin].
    rewrite decide_False by done. by rewrite IH.
Qed.

Lemma disconnect_new_registration user_id websocket active :
  registry_inv active →
  websocket ∉ get user_id active →
  disconnect user_id websocket
    (<[user_id := get user_id active ++ [websocket]]> active) = active.
Proof.
  intros Hinv Hnotin. apply map_eq. intros user_id'.
  destruct (decide (user_id = user_id')) as [<-|Hne].
  - rewrite disconnect_lookup. unfold get at 1. rewrite lookup_insert_eq. simpl.
    rewrite (remove_first_snoc _ _ Hnotin). unfold get.
    destruct (active !! user_id) as [[|ws conns]|] eqn:Hlook; simpl; try done.
    by destruct (Hinv _ _ Hlook).
  - by rewrite disconnect_lookup_ne, lookup_insert_ne.
Qed.

(** X5. Connecting a connection that is not yet listed and disconnecting
    it again gives back the registry as it was. *)
Theorem connect_then_disconnect_restores net user_id websocket active :
  registry_inv active →
  websocket ∉ get user_id active →
  accept_ok net websocket = true →
  disconnect user_id websocket (connect net user_id websocket active).2 = active.
Proof.
  intros Hinv Hnotin Hacc. rewrite (connect_accepted _ _ _ _ Hacc).
  cbn [snd]. by apply disconnect_new_registration.
Qed.

Lemma remove_first_elem conns ws ws' :
  ws' ∈ remove_first ws conns → ws' ∈ conns.
Proof.
  induction conns as [|x conns IH]; simpl; [done|].
  destruct (decide (x = ws)).
  - by right.
  - rewrite !elem_of_cons. intros [->|Hin]; [by left|]. right. by apply IH.
Qed.

Lemma step_registered st o user_id websocket :
  websocket ∈ get user_id (step st o).1 →
  websocket ∈ get user_id st.1
  ∨ ∃ net, o = Connect net user_id websocket ∧ accept_ok net websocket = true.
Proof.
  destruct o as [net u ws|u ws|net u message]; simpl.
  - unfold connect. destruct (accept_ok net ws) eqn:Hacc; simpl; [|by left].
    unfold get at 1. destruct (decide (u = user_id)) as [->|Hne].
    + rewrite lookup_insert_eq. simpl. rewrite elem_of_app, list_elem_of_singleton.
      intros [Hin| ->]; [by left|]. right. by exists net.
    + rewrite lookup_insert_ne by done. by left.
  - destruct (decide (u = user_id)) as [->|Hne].
    + rewrite get_disconnect. intros Hin. left. by apply remove_first_elem in Hin.
    + unfold get at 1. rewrite disconnect_lookup_ne by done. by left.
  - pose proof (get_broadcast net u message st.1 st.2) as Hget.
    pose proof (broadcast_eq net u message st.1 st.2) as Heq.
    destruct (broadcast net u message st.1 st.2) as [[r a] wi].
    injection Heq as _ Ha _. cbn [fst snd] in Hget |- *.
    destruct (decide (u = user_id)) as [->|Hne].
    + rewrite Hget. intros [Hin _]%list_elem_of_In%filter_In. left.
      by apply list_elem_of_In.
    + unfold get at 1. rewrite Ha, disconnect_all_lookup_ne by done. by left.
Qed.

Lemma run_registered ops st user_id websocket :
  websocket ∈ get user_id (run ops st).1 →
  websocket ∈ get user_id st.1
  ∨ ∃ net, Connect net user_id websocket ∈ ops ∧ accept_ok net websocket = true.
Proof.
  unfold run. revert st. induction ops as [|o ops IH]; intros st Hin; simpl in Hin.
  - by left.
  - destruct (IH _ Hin) as [Hstep|(net & Hop & Hacc)].
    + destruct (step_registered _ _ _ _ Hstep) as [Hst|(net & -> & Hacc)].
      * by left.
      * right. exists net. split; [by left|done].
    + right. exists net. split; [by right|done].
Qed.

(** X6. The registry only lists what [connect] has put there: after any
    sequence of operations from the empty registry, a connection listed
    for a user was connected for that user by a [connect] whose handshake
    completed. *)
Theorem registered_only_by_connect ops user_id websocket :
  websocket ∈ get user_id (run ops (init, [])).1 →
  ∃ net, Connect net user_id websocket ∈ ops ∧ accept_ok net websocket = true.
Proof.
  intros Hin. destruct (run_registered _ _ _ _ Hin) as [Hinit|Hop]; [|done].
  simpl in Hinit. unfold get, init in Hinit. rewrite lookup_empty in Hinit.
  by apply elem_of_nil in Hinit.
Qed.

End registry_extras.


Lemma dict_get_set_ne (key key' : string) (v : pyval) (d : list (string * pyval)) :
  key ≠ key' → dict_get key' (dict_set key v d) = dict_get key' d.
Proof.
  intros Hne. induction d as [|[k x] d IH]; simpl.
  - by rewrite decide_False.
  - destruct (decide (k = key)) as [->|Hk]; simpl.
    + by rewrite !decide_False.
    + by rewrite IH.
Qed.

Lemma dict_get_set_eq (key : string) (v : pyval) (d : list (string * pyval)) :
  dict_get key (dict_set key v d) = Some v.
Proof.
  induction d as [|[k x] d IH]; simpl.
  - by rewrite decide_True.
  - destruct (decide (k = key)) as [->|Hk]; simpl.
    + by rewrite decide_True.
    + by rewrite decide_False.
Qed.

Section live.
Variable str : pyval → string.
Variable isoformat : datetime → string.
Variables email_str http_url : string → bool.

(** The second step of [websocket_endpoint] returns whatever happens,
    leaves store, clock and registry alone, and sends at most one text, to
    the new connection. *)
Lemma initial_push_effect net user_id websocket w :
  ∃ w',
    try_except
      (items <~ get_documents "trackpoint" [("user_id", user_id)] 1 ;;
       match sort_desc created_at_key items with
       | [] => ret tt
       | latest :: _ =>
           latest <~ serialize_id str latest ;;
           send_text_default_str str net websocket
             (VDict [("type", VStr "last"); ("data", VDict latest)])
       end)
      (λ _, ret tt) w = (Ok tt, w')
    ∧ db w' = db w ∧ clock w' = clock w ∧ active w' = active w
    ∧ (wire w' = wire w ∨ ∃ text, wire w' = wire w ++ [(websocket, text)]).
Proof.
  unfold try_except, bind, get_documents.
  destruct (db w) as [d|] eqn:Hdb; cbn [fst snd].
  2:{ exists w. unfold ret. repeat split; auto. }
  destruct (sort_desc created_at_key _) as [|latest rest].
  { exists w. unfold ret. repeat split; auto. }
  unfold serialize_id.
  destruct (dict_get "_id" latest) as [oid|].
  2:{ exists w. unfold raise, ret. repeat split; auto. }
  unfold ret at 1. unfold send_text_default_str.
  destruct (json_dumps (Some str) _) as [text|].
  2:{ exists w. unfold raise, ret. repeat split; auto. }
  destruct (send_ok net websocket).
  - eexists. split; [reflexivity|]. cbn [db clock active wire set_manager].
    repeat split; eauto.
  - exists w. unfold raise, ret. repeat split; auto.
Qed.

Lemma websocket_endpoint_effect net user_id websocket w :
  accept_ok net websocket = true →
  ∃ w',
    websocket_endpoint str net user_id websocket w = (Ok tt, w')
    ∧ active w' = <[user_id := get user_id (active w) ++ [websocket]]> (active w)
    ∧ db w' = db w ∧ clock w' = clock w
    ∧ (wire w' = wire w ∨ ∃ text, wire w' = wire w ++ [(websocket, text)]).
Proof.
  intros Hacc. unfold websocket_endpoint, bind at 1, manager_connect.
  rewrite (connect_accepted _ _ _ _ Hacc). cbn [fst snd].
  destruct (initial_push_effect net user_id websocket
              (set_manager (<[user_id := get user_id (active w) ++ [websocket]]>
                              (active w)) (wire w) w))
    as (w' & Heq & Hdb & Hclock & Hactive & Hwire).
  exists w'. split; [exact Heq|]. by rewrite Hactive, Hdb, Hclock.
Qed.

(** X7. When the handshake completes, [websocket_endpoint] registers the
    connection last for its user and goes on to its receive loop whatever
    the store and the first send do; it leaves the store and the other
    users alone and sends at most one text, to the new connection.  When
    the handshake fails nothing changes and the failure is raised. *)
Theorem websocket_endpoint_always_registers net user_id websocket w :
  if accept_ok net websocket
  then ∃ w',
         websocket_endpoint str net user_id websocket w = (Ok tt, w')
         ∧ get user_id (active w') = get user_id (active w) ++ [websocket]
         ∧ (∀ user_id', user_id' ≠ user_id →
              active w' !! user_id' = active w !! user_id')
         ∧ db w' = db w
         ∧ (wire w' = wire w ∨ ∃ text, wire w' = wire w ++ [(websocket, text)])
  else websocket_endpoint str net user_id websocket w = (Raise ConnectionClosed, w).
Proof.
  destruct (accept_ok net websocket) eqn:Hacc.
  - destruct (websocket_endpoint_effect net user_id websocket w Hacc)
      as (w' & Heq & Hactive & Hdb & _ & Hwire).
    exists w'. split; [done|]. rewrite Hactive. split; [|split; [|done]].
    + unfold get at 1. by rewrite lookup_insert_eq.
    + intros user_id' Hne. by rewrite lookup_insert_ne.
  - unfold websocket_endpoint, bind, manager_connect.
    rewrite (connect_refused _ _ _ _ Hacc). by destruct w.
Qed.

(** X8. A connection that opens and then closes with
    [WebSocketDisconnect] leaves the registry as it found it. *)
Theorem websocket_open_close_restores_registry net user_id websocket w :
  registry_inv (active w) →
  websocket ∉ get user_id (active w) →
  accept_ok net websocket = true →
  active (websocket_endpoint_disconnect user_id websocket
            (websocket_endpoint str net user_id websocket w).2).2
  = active w.
Proof.
  intros Hinv Hnotin Hacc.
  destruct (websocket_endpoint_effect net user_id websocket w Hacc)
    as (w' & Heq & Hactive & _).
  rewrite Heq. cbn [fst snd]. unfold websocket_endpoint_disconnect, manager_disconnect.
  cbn [fst snd active set_manager]. rewrite Hactive.
  by apply disconnect_new_registration.
Qed.
End live.


Section sorting_more.
Context {A : Type} (key : A → nat).

Lemma insert_desc_sorted (x : A) (l : list A) :
  StronglySorted (λ a b, (key b ≤ key a)%nat) l →
  StronglySorted (λ a b, (key b ≤ key a)%nat) (insert_desc key x l).
Proof.
  induction 1 as [|y l Hsorted IH Hall]; simpl.
  - repeat constructor.
  - destruct (key x <? key y)%nat eqn:Hlt.
    + apply Nat.ltb_lt in Hlt. constructor; [done|].
      rewrite insert_desc_perm. constructor; [lia|done].
    + apply Nat.ltb_ge in Hlt. constructor; [by constructor|].
      constructor; [done|]. eapply Forall_impl; [exact Hall|].
      intros z Hz. simpl in Hz. lia.
Qed.

Lemma sort_desc_sorted (l : list A) :
  StronglySorted (λ a b, (key b ≤ key a)%nat) (sort_desc key l).
Proof.
  induction l as [|x l IH]; simpl; [constructor|]. by apply insert_desc_sorted.
Qed.
End sorting_more.

Lemma matches_user_id user_id (record : list (string * pyval)) :
  matches [("user_id", user_id)] record = true →
  dict_get "user_id" record = Some (VStr user_id).
Proof.
  unfold matches. cbn [forallb fst snd]. rewrite andb_true_r.
  destruct (dict_get "user_id" record) as [[]|]; try done.
  by intros ->%bool_decide_eq_true.
Qed.

Section listing.
Variable str : pyval → string.

Lemma serialize_id_eq (x : list (string * pyval)) w :
  serialize_id str x w
  = match dict_get "_id" x with
    | Some _ => (Ok (with_str_id str x), w)
    | None => (Raise KeyError, w)
    end.
Proof. unfold serialize_id, with_str_id. by destruct (dict_get "_id" x). Qed.

Lemma serialize_ids_state items w : (serialize_ids str items w).2 = w.
Proof.
  induction items as [|x items IH]; [done|].
  cbn [serialize_ids]. unfold bind at 1. rewrite serialize_id_eq.
  destruct (dict_get "_id" x); [|done].
  unfold bind. destruct (serialize_ids str items w) as [[items'|e] w'];
    simpl in *; by subst.
Qed.

Lemma serialize_ids_Ok items items' w :
  (serialize_ids str items w).1 = Ok items' → items' = with_str_id str <$> items.
Proof.
  revert items'. induction items as [|x items IH]; intros items'.
  - by intros [= <-].
  - cbn [serialize_ids]. unfold bind at 1. rewrite serialize_id_eq.
    destruct (dict_get "_id" x); [|done].
    unfold bind. destruct (serialize_ids str items w) as [[rest|e] w']; [|done].
    simpl. intros [= <-]. simpl in IH. by rewrite (IH rest eq_refl).
Qed.

Lemma serialize_ids_all items w :
  Forall (λ x, is_Some (dict_get "_id" x)) items →
  serialize_ids str items w = (Ok (with_str_id str <$> items), w).
Proof.
  induction 1 as [|x items [oid Hoid] _ IH]; [done|].
  cbn [serialize_ids]. unfold bind at 1. rewrite serialize_id_eq, Hoid.
  unfold bind. by rewrite IH.
Qed.

Lemma with_str_id_get key (x : list (string * pyval)) :
  key ≠ "_id" → dict_get key (with_str_id str x) = dict_get key x.
Proof.
  intros Hne. unfold with_str_id. destruct (dict_get "_id" x); [|done].
  by apply dict_get_set_ne.
Qed.

Lemma with_str_id_id (x : list (string * pyval)) oid :
  dict_get "_id" x = Some oid →
  dict_get "_id" (with_str_id str x) = Some (VStr (str oid)).
Proof. intros Hoid. unfold with_str_id. rewrite Hoid. apply dict_get_set_eq. Qed.

Lemma with_str_id_key (x : list (string * pyval)) :
  created_at_key (with_str_id str x) = created_at_key x.
Proof. unfold created_at_key. by rewrite with_str_id_get. Qed.

End listing.


Section reads.
Variable str : pyval → string.
Variable isoformat : datetime → string.
Variables email_str http_url : string → bool.

Lemma get_documents_eq collection_name filter_dict limit w :
  get_documents collection_name filter_dict limit w
  = match db w with
    | Some _ => (Ok (take limit (List.filter (matches filter_dict)
                                   (records collection_name w))), w)
    | None => (Raise DatabaseUnavailable, w)
    end.
Proof. unfold get_documents, records. by destruct (db w). Qed.

Lemma get_documents_all_eq collection_name filter_dict w :
  get_documents_all collection_name filter_dict w
  = match db w with
    | Some _ => (Ok (List.filter (matches filter_dict)
                       (records collection_name w)), w)
    | None => (Raise DatabaseUnavailable, w)
    end.
Proof. unfold get_documents_all, records. by destruct (db w). Qed.

Lemma elem_of_take_filter (P : list (string * pyval) → bool) limit l x :
  x ∈ take limit (List.filter P l) → x ∈ l ∧ P x = true.
Proof.
  intros Hin. assert (x ∈ List.filter P l) as Hf by (eapply subseteq_take, Hin).
  apply list_elem_of_In, filter_In in Hf as [Hl HP].
  split; [by apply list_elem_of_In|done].
Qed.

(** X12. [location_last] never changes the state, and its answer is null
    or a record whose [user_id] is the one asked for. *)
Theorem location_last_reads_own_records user_id w :
  (location_last str user_id w).2 = w
  ∧ ∀ resp,
      (location_last str user_id w).1 = Ok resp →
      resp = [("latest", VNone)]
      ∨ ∃ latest, resp = [("latest", VDict latest)]
                  ∧ dict_get "user_id" latest = Some (VStr user_id).
Proof.
  unfold location_last, bind. rewrite get_documents_eq.
  destruct (db w) as [d|]; [|done]. cbn [fst snd].
  destruct (sort_desc created_at_key _) as [|latest rest] eqn:Hsort.
  { split; [done|]. intros resp [= <-]. by left. }
  assert (matches [("user_id", user_id)] latest = true) as Hmatch.
  { eapply (elem_of_take_filter _ 50 (records "trackpoint" w)).
    rewrite <- (sort_desc_perm created_at_key), Hsort. by left. }
  apply matches_user_id in Hmatch.
  destruct latest as [|field latest]; [done|].
  rewrite serialize_id_eq.
  destruct (dict_get "_id" (field :: latest)) eqn:Hid; [|done].
  split; [done|]. intros resp [= <-]. right. eexists. split; [done|].
  by rewrite with_str_id_get.
Qed.

(** X14. While the store is not connected, every handler that reads or
    writes it raises and changes nothing: in particular a submitted point
    is not broadcast when it cannot be stored. *)
Theorem store_down_fails_requests w :
  db w = None →
  (∀ net point,
     Trackpoint.valid point = true →
     app str isoformat email_str http_url net (POST_location_update point) w
     = (Raise DatabaseUnavailable, w))
  ∧ (∀ net inc,
       Incident.valid http_url inc = true →
       app str isoformat email_str http_url net (POST_incidents inc) w
       = (Raise DatabaseUnavailable, w))
  ∧ (∀ net user_id,
       app str isoformat email_str http_url net (GET_location_last user_id) w
       = (Raise DatabaseUnavailable, w))
  ∧ (∀ g,
       Guardian.valid email_str g = true →
       post_guardians str email_str g w = (Raise DatabaseUnavailable, w))
  ∧ (∀ user_id, list_guardians str user_id w = (Raise DatabaseUnavailable, w))
  ∧ (∀ user_id limit,
       list_incidents str user_id limit w = (Raise DatabaseUnavailable, w)).
Proof.
  intros Hdb. repeat split.
  - intros net point Hvalid. unfold app. rewrite Hvalid.
    unfold location_update, bind, datetime_now, create_document. by rewrite Hdb.
  - intros net inc Hvalid. unfold app. rewrite Hvalid.
    unfold create_incident, bind, create_document. by rewrite Hdb.
  - intros net user_id. unfold app, location_last, bind.
    by rewrite get_documents_eq, Hdb.
  - intros g Hvalid. unfold post_guardians. rewrite Hvalid.
    unfold add_guardian, bind, create_document. by rewrite Hdb.
  - intros user_id. unfold list_guardians, bind.
    by rewrite get_documents_all_eq, Hdb.
  - intros user_id limit. unfold list_incidents, bind.
    by rewrite get_documents_eq, Hdb.
Qed.

(** X16. [list_guardians] never changes the state, and when it answers,
    the items are exactly the stored guardians of the user, in the order
    of the store, each with its identifier turned into a string. *)
Theorem list_guardians_returns_own_guardians user_id w :
  (list_guardians str user_id w).2 = w
  ∧ ∀ resp,
      (list_guardians str user_id w).1 = Ok resp →
      ∃ items,
        resp = [("items", VList (VDict <$> items))]
        ∧ items = with_str_id str
                  <$> List.filter (matches [("user_id", user_id)])
                        (records "guardian" w)
        ∧ Forall (λ x, dict_get "user_id" x = Some (VStr user_id)) items.
Proof.
  unfold list_guardians, bind. rewrite get_documents_all_eq.
  destruct (db w) as [d|]; [|done].
  set (mine := List.filter _ (records "guardian" w)).
  pose proof (serialize_ids_state str mine w) as Hst.
  pose proof (serialize_ids_Ok str mine) as Hok.
  destruct (serialize_ids str mine w) as [[items|e] w'] eqn:Hser;
    simpl in Hst; subst w'; [|done].
  split; [done|]. intros resp [= <-]. exists items.
  specialize (Hok items w). rewrite Hser in Hok. specialize (Hok eq_refl).
  subst items. split; [done|]. split; [done|].
  apply Forall_fmap, Forall_forall. intros x Hx. simpl.
  rewrite with_str_id_get by done. apply matches_user_id.
  subst mine. by apply list_elem_of_In, filter_In in Hx as [_ Hx].
Qed.

(** X17. [list_incidents] never changes the state, and when it answers,
    the items are stored incidents with their identifier as a string,
    ordered by [created_at] from the newest to the oldest, and all of the
    user when a non-empty [user_id] is given. *)
Theorem list_incidents_newest_first user_id limit w :
  (list_incidents str user_id limit w).2 = w
  ∧ ∀ resp,
      (list_incidents str user_id limit w).1 = Ok resp →
      ∃ items,
        resp = [("items", VList (VDict <$> items))]
        ∧ newest_first items
        ∧ Forall (λ x, ∃ record, record ∈ records "incident" w
                                 ∧ x = with_str_id str record) items
        ∧ ∀ u, user_id = Some u → u ≠ "" →
               Forall (λ x, dict_get "user_id" x = Some (VStr u)) items.
Proof.
  unfold list_incidents, bind. rewrite get_documents_eq.
  destruct (db w) as [d|]; [|done].
  set (filt := match user_id with
               | Some u => if decide (u = "") then [] else [("user_id", u)]
               | None => []
               end).
  set (fetched := take limit (List.filter (matches filt) (records "incident" w))).
  pose proof (serialize_ids_state str fetched w) as Hst.
  pose proof (serialize_ids_Ok str fetched) as Hok.
  destruct (serialize_ids str fetched w) as [[items|e] w'] eqn:Hser;
    simpl in Hst; subst w'; [|done].
  split; [done|]. intros resp [= <-]. eexists. split; [done|].
  specialize (Hok items w). rewrite Hser in Hok. specialize (Hok eq_refl).
  subst items. split; [apply sort_desc_sorted|]. split.
  - apply Forall_forall. intros x Hx.
    rewrite sort_desc_perm in Hx. apply list_elem_of_fmap in Hx as (record & -> & Hin).
    exists record. split; [|done].
    subst fetched. by apply elem_of_take_filter in Hin as [Hin _].
  - intros u -> Hu. apply Forall_forall. intros x Hx.
    rewrite sort_desc_perm in Hx. apply list_elem_of_fmap in Hx as (record & -> & Hin).
    rewrite with_str_id_get by done. apply matches_user_id.
    subst fetched filt. rewrite decide_False in Hin by done.
    by apply elem_of_take_filter in Hin as [_ Hin].
Qed.

End reads.


Lemma dict_get_cons_ne (key k : string) (v : pyval) (d : list (string * pyval)) :
  k ≠ key → dict_get key ((k, v) :: d) = dict_get key d.
Proof. intros Hne. simpl. by rewrite decide_False. Qed.

Lemma dict_get_cons_eq (key : string) (v : pyval) (d : list (string * pyval)) :
  dict_get key ((key, v) :: d) = Some v.
Proof. simpl. by rewrite decide_True. Qed.

Lemma substring_length (n : nat) (s : string) :
  (String.length (substring 0 n s) ≤ n)%nat.
Proof.
  revert s. induction n as [|n IH]; intros [|c s]; simpl; try lia.
  specialize (IH s). lia.
Qed.

Lemma append_length (s1 s2 : string) :
  String.length (s1 +:+ s2) = (String.length s1 + String.length s2)%nat.
Proof. induction s1 as [|c s1 IH]; simpl; [done|]. by rewrite IH. Qed.

Section writes.
Variable str : pyval → string.
Variable isoformat : datetime → string.
Variables email_str http_url : string → bool.

(** What [create_document] does to a connected store. *)
Lemma create_document_stores collection_name data w d :
  db w = Some d →
  ∃ w',
    create_document str collection_name data w
    = (Ok (str (VObjectId (next_id d))), w')
    ∧ records collection_name w'
      = records collection_name w
        ++ [dict_set "created_at" (VDatetime (clock w))
              (("_id", VObjectId (next_id d)) :: data)]
    ∧ is_Some (db w').
Proof.
  intros Hdb. unfold create_document. rewrite Hdb. eexists. split; [done|].
  unfold records, set_db. cbn [db collections]. rewrite Hdb.
  rewrite lookup_insert_eq. by split.
Qed.

(** X15. A guardian that [POST /guardians] accepts is among the items of
    [GET /guardians] for its user, with the returned identifier as a
    string and its name. *)
Theorem guardian_round_trip g w d :
  db w = Some d →
  Guardian.valid email_str g = true →
  Forall (λ x, is_Some (dict_get "_id" x)) (records "guardian" w) →
  ∃ w' items item,
    post_guardians str email_str g w
    = (Ok [("guardian_id", VStr (str (VObjectId (next_id d))))], w')
    ∧ list_guardians str (Guardian.user_id g) w'
      = (Ok [("items", VList (VDict <$> items))], w')
    ∧ item ∈ items
    ∧ dict_get "_id" item = Some (VStr (str (VObjectId (next_id d))))
    ∧ dict_get "user_id" item = Some (VStr (Guardian.user_id g))
    ∧ dict_get "name" item = Some (VStr (Guardian.name g)).
Proof.
  intros Hdb Hvalid Hids.
  destruct (create_document_stores "guardian" (Guardian.model_dump g) w d Hdb)
    as (w' & Hcreate & Hrecords & [d' Hdb']).
  set (record := dict_set "created_at" _ _) in Hrecords.
  assert (dict_get "_id" record = Some (VObjectId (next_id d))) as Hid.
  { subst record. rewrite dict_get_set_ne by done. apply dict_get_cons_eq. }
  assert (dict_get "user_id" record = Some (VStr (Guardian.user_id g))) as Huser.
  { subst record. rewrite dict_get_set_ne by done.
    rewrite dict_get_cons_ne by done. apply dict_get_cons_eq. }
  assert (dict_get "name" record = Some (VStr (Guardian.name g))) as Hname.
  { subst record. unfold Guardian.model_dump. rewrite dict_get_set_ne by done.
    rewrite !dict_get_cons_ne by done. apply dict_get_cons_eq. }
  assert (matches [("user_id", Guardian.user_id g)] record = true) as Hmatch.
  { unfold matches. cbn [forallb fst snd]. rewrite Huser, andb_true_r.
    by apply bool_decide_eq_true. }
  exists w', (with_str_id str
                <$> List.filter (matches [("user_id", Guardian.user_id g)])
                      (records "guardian" w ++ [record])),
    (with_str_id str record).
  split; [|split; [|split; [|split; [|split]]]].
  - unfold post_guardians. rewrite Hvalid. unfold add_guardian, bind.
    by rewrite Hcreate.
  - unfold list_guardians, bind. rewrite get_documents_all_eq, Hdb', Hrecords.
    rewrite serialize_ids_all; [done|].
    apply Forall_forall. intros x Hx.
    apply list_elem_of_In, filter_In in Hx as [Hx _].
    apply list_elem_of_In, elem_of_app in Hx as [Hx|Hx].
    + by apply (proj1 (Forall_forall _ _) Hids).
    + apply list_elem_of_singleton in Hx. subst x. by rewrite Hid.
  - rewrite List.filter_app. cbn [List.filter]. rewrite Hmatch.
    rewrite fmap_app. apply elem_of_app. right. cbn [fmap list_fmap]. by left.
  - by apply with_str_id_id.
  - by rewrite with_str_id_get.
  - by rewrite with_str_id_get.
Qed.

(** X18. [health] always answers, with backend "ok", and changes
    nothing; the database status is "ok" exactly when the store is
    connected and the probe returns, and it is never longer than 87
    characters, whatever the error. *)
Theorem health_always_answers list_collection_names w :
  ∃ status,
    health list_collection_names w
    = (Ok [("backend", VStr "ok"); ("database", VStr status)], w)
    ∧ (status = "ok" ↔ ∃ d, db w = Some d ∧ list_collection_names d = None)
    ∧ (String.length status ≤ 87)%nat.
Proof.
  unfold health. destruct (db w) as [d|] eqn:Hdb.
  - destruct (list_collection_names d) as [e|] eqn:Hprobe.
    + eexists. split; [done|]. split.
      * split; [done|]. intros (d' & [= <-] & Hnone). congruence.
      * rewrite append_length. pose proof (substring_length 80 e). simpl. lia.
    + eexists. split; [done|]. split; [|simpl; lia].
      split; [|done]. intros _. by exists d.
  - eexists. split; [done|]. split; [|simpl; lia].
    split; [done|]. by intros (d' & [=] & _).
Qed.

(** X19. The providers that [GET /auth/providers] advertises are the ones
    that [mock_login] accepts: a login is refused as unsupported exactly
    when its lowercased provider is not advertised. *)
Theorem advertised_providers_are_the_accepted payload w :
  ∃ advertised,
    auth_providers w = (Ok [("providers", VList advertised)], w)
    ∧ (VStr (lower (MockAuthRequest.provider payload)) ∈ advertised
       ↔ mock_login str email_str http_url payload w
         ≠ (Raise (HTTPException 400 "Unsupported provider"), w)).
Proof.
  eexists. split; [reflexivity|].
  assert (VStr (lower (MockAuthRequest.provider payload))
            ∈ [VStr "google"; VStr "microsoft"; VStr "apple"; VStr "mock"]
          ↔ lower (MockAuthRequest.provider payload) ∈ providers) as ->.
  { unfold providers. rewrite !elem_of_cons, !elem_of_nil.
    split; intros H; repeat destruct H as [H|H]; try done; first
      [ injection H as -> | rewrite H ]; tauto. }
  split.
  - intros Hin. unfold mock_login.
    rewrite bool_decide_eq_false_2 by (by intros Hnotin).
    unfold bind, new_User, create_document, ret, raise.
    destruct (User.valid _ _ _); [|done].
    by destruct (db w).
  - intros Hne. destruct (decide (lower (MockAuthRequest.provider payload) ∈ providers))
      as [Hin|Hnotin]; [done|].
    exfalso. apply Hne. by apply unsupported_provider_rejected.
Qed.
End writes.


Lemma str_or_given_or (x : option string) (y : string) :
  given_or x y (VStr (str_or x y)).
Proof.
  unfold given_or, str_or. destruct x as [s|]; [|left; auto].
  destruct (decide (s = "")) as [->|Hs]; [left; auto|].
  right. by exists s.
Qed.

Section writes_more.
Variable str : pyval → string.
Variable isoformat : datetime → string.
Variables email_str http_url : string → bool.

(** X20. An accepted login adds one user record; it holds the name and
    the token of the request where they are given and not empty, and
    otherwise "SafeShe User" and "mock-token"; the account is active.
    (Nothing is said of the e-mail and the photo URL, which the schema
    may store in another form than the request's.) *)
Theorem mock_login_stores_defaults payload w resp w' :
  mock_login str email_str http_url payload w = (Ok resp, w') →
  ∃ record name provider_id,
    users w' ≡ₚ record :: users w
    ∧ dict_get "name" record = Some name
    ∧ given_or (MockAuthRequest.name payload) "SafeShe User" name
    ∧ dict_get "provider_id" record = Some provider_id
    ∧ given_or (MockAuthRequest.token payload) "mock-token" provider_id
    ∧ dict_get "is_active" record = Some (VBool true).
Proof.
  unfold mock_login. destruct (bool_decide _); [done|].
  unfold bind at 1, new_User. destruct (User.valid _ _ _); [|done].
  unfold ret at 1, bind.
  destruct (db w) as [d|] eqn:Hdb.
  2:{ unfold create_document. by rewrite Hdb. }
  destruct (create_document_stores str "user" (User.model_dump
    {| User.name := Some (str_or (MockAuthRequest.name payload) "SafeShe User");
       User.email :=
         Some (str_or (MockAuthRequest.email payload)
                 ("user-" +:+ lower (MockAuthRequest.provider payload)
                  +:+ "@safeshe.app"));
       User.provider := Some (lower (MockAuthRequest.provider payload));
       User.provider_id :=
         Some (str_or (MockAuthRequest.token payload) "mock-token");
       User.photo_url := MockAuthRequest.photo_url payload;
       User.is_active := true |}) w d Hdb) as (w1 & Hcreate & Hrecords & _).
  rewrite Hcreate. unfold ret. intros [= <- <-].
  eexists _, _, _.
  split.
  { replace (users w1) with (records "user" w1) by done.
    replace (users w) with (records "user" w) by done.
    rewrite Hrecords. symmetry. apply Permutation_cons_append. }
  unfold User.model_dump. cbn [User.name User.email User.provider User.provider_id
    User.photo_url User.is_active dump].
  assert (∀ key v fields,
            key ≠ "created_at" → key ≠ "_id" →
            dict_get key fields = Some v →
            dict_get key (dict_set "created_at" (VDatetime (clock w))
                            (("_id", VObjectId (next_id d)) :: fields)) = Some v)
    as Hfield.
  { intros key v fields Hc Hi Hget. rewrite dict_get_set_ne by done.
    by rewrite dict_get_cons_ne. }
  split; [apply Hfield; [done|done|apply dict_get_cons_eq]|].
  split; [apply str_or_given_or|].
  split; [apply Hfield; [done|done|];
          rewrite !dict_get_cons_ne by done; apply dict_get_cons_eq|].
  split; [apply str_or_given_or|].
  apply Hfield; [done|done|].
  rewrite !dict_get_cons_ne by done. apply dict_get_cons_eq.
Qed.


End writes_more.

Section history.
Variable str : pyval → string.
Variable isoformat : datetime → string.
Variables email_str http_url : string → bool.














End history.

(** * The further properties at concrete inputs *)

(** X1 at a concrete input: two reachable viewers of [u1]. *)
Lemma broadcast_without_failure_keeps_registry_witness :
  (broadcast net_up "u1" (VStr "ping") {["u1" := [1; 2]]} []).1.2
  = {["u1" := [1; 2]]}.
Proof.
  apply (proj1 broadcast_without_failure_keeps_registry net_up "u1" (VStr "ping")
           {["u1" := [1; 2]]} []).
  vm_compute. repeat constructor.
Defined.

(** X2 at a concrete input: connection 2 of [u1] is gone. *)
Lemma broadcast_serves_reachable_witness :
  ∃ active',
    broadcast (net_without [2]) "u1" (VStr "ping") {["u1" := [1; 2; 3]]} []
    = (Ok tt, active',
       [] ++ ((λ ws, (ws, JStr "ping"))
              <$> List.filter (send_ok (net_without [2]))
                    (get "u1" {["u1" := [1; 2; 3]]})))
    ∧ get "u1" active'
      = List.filter (send_ok (net_without [2])) (get "u1" {["u1" := [1; 2; 3]]})
    ∧ ∀ user_id', user_id' ≠ "u1" →
        active' !! user_id'
        = ({["u1" := [1; 2; 3]]} : gmap string (list nat)) !! user_id'.
Proof.
  apply (broadcast_serves_reachable (net_without [2]) "u1" (VStr "ping")
           (JStr "ping") {["u1" := [1; 2; 3]]} []).
  vm_compute. reflexivity.
Defined.

(** X3 at a concrete input: a message that holds a [datetime]. *)
Lemma broadcast_unserialisable_drops_all_witness :
  broadcast net_up "u1" (VDict [("ts", VDatetime 5)])
    (run [Connect net_up "u1" 7] (init, [])).1 []
  = (Ok tt, delete "u1" (run [Connect net_up "u1" 7] (init, [])).1, []).
Proof.
  apply broadcast_unserialisable_drops_all.
  - apply run_inv, registry_inv_init.
  - vm_compute. reflexivity.
Defined.

(** X5 at a concrete input: the first connection of [u1]. *)
Lemma connect_then_disconnect_restores_witness :
  disconnect "u1" 7 (connect net_up "u1" 7 init).2 = init.
Proof.
  apply connect_then_disconnect_restores.
  - apply registry_inv_init.
  - vm_compute. apply not_elem_of_nil.
  - vm_compute. reflexivity.
Defined.

(** X6 at a concrete input. *)
Lemma registered_only_by_connect_witness :
  ∃ net, Connect net "u1" 7 ∈ [Connect net_up "u1" 7; Disconnect "u2" 7]
         ∧ accept_ok net 7 = true.
Proof.
  apply (registered_only_by_connect [Connect net_up "u1" 7; Disconnect "u2" 7]).
  vm_compute. apply list_elem_of_here.
Defined.

(** X8 at a concrete input: the first viewer of a started service. *)
Lemma websocket_open_close_restores_registry_witness :
  active (websocket_endpoint_disconnect "u1" 7
            (websocket_endpoint str_of net_up "u1" 7 fresh).2).2
  = active fresh.
Proof.
  apply websocket_open_close_restores_registry.
  - apply registry_inv_init.
  - vm_compute. apply not_elem_of_nil.
  - vm_compute. reflexivity.
Defined.

(** X9 at a concrete input: a started service, without any trackpoint. *)
Lemma websocket_endpoint_no_history_witness :
  wire (websocket_endpoint str_of net_up "u1" 7 fresh).2 = wire fresh.
Proof.
  apply websocket_endpoint_no_history. vm_compute. reflexivity.
Defined.


(** X11 at a concrete input: a started service. *)
Lemma location_last_no_history_witness :
  location_last str_of "u1" fresh = (Ok [("latest", VNone)], fresh).
Proof.
  eapply location_last_no_history; vm_compute; reflexivity.
Defined.

(** X13 at a concrete input: the sample point and the viewer of [u1]. *)
Lemma location_update_delivers_witness :
  ∃ w',
    location_update str_of iso_of net_up (sample None) (watched str_of)
    = (Ok [("trackpoint_id", VStr "id0")], w')
    ∧ wire w'
      = wire (watched str_of)
        ++ ((λ ws, (ws, JObject
                          [("type", JStr "track");
                           ("data", JObject (non_null_fields (sample None)
                                             ++ [("_id", JStr "id0");
                                                 ("server_ts", JStr "T1")]))]))
            <$> List.filter (send_ok net_up) (get "u1" (active (watched str_of))))
    ∧ get "u1" (active w')
      = List.filter (send_ok net_up) (get "u1" (active (watched str_of)))
    ∧ length (trackpoints w') = S (length (trackpoints (watched str_of))).
Proof.
  apply (location_update_delivers str_of iso_of net_up (sample None)
           (watched str_of) {| collections := ∅; next_id := 0 |}).
  - vm_compute. reflexivity.
  - vm_compute. reflexivity.
Defined.

(** X14 at a concrete input: the sample point, store not connected. *)
Lemma store_down_fails_requests_witness :
  app str_of iso_of any_format any_format net_up
    (POST_location_update (sample None)) offline
  = (Raise DatabaseUnavailable, offline).
Proof.
  apply (proj1 (store_down_fails_requests str_of iso_of any_format any_format
                  offline eq_refl)).
  vm_compute. reflexivity.
Defined.

(** X15 at a concrete input: the first guardian of [u1]. *)
Lemma guardian_round_trip_witness :
  ∃ w' items item,
    post_guardians str_of any_format sample_guardian fresh
    = (Ok [("guardian_id", VStr (str_of (VObjectId 0)))], w')
    ∧ list_guardians str_of "u1" w' = (Ok [("items", VList (VDict <$> items))], w')
    ∧ item ∈ items
    ∧ dict_get "_id" item = Some (VStr (str_of (VObjectId 0)))
    ∧ dict_get "user_id" item = Some (VStr "u1")
    ∧ dict_get "name" item = Some (VStr "Asha").
Proof.
  apply (guardian_round_trip str_of any_format sample_guardian fresh
           {| collections := ∅; next_id := 0 |}).
  - vm_compute. reflexivity.
  - vm_compute. reflexivity.
  - vm_compute. constructor.
Defined.

(** X20 at a concrete input: a login that only names the provider mock. *)
Lemma mock_login_stores_defaults_witness :
  ∃ record name provider_id,
    users (mock_login str_of any_format any_format (login_with "mock") fresh).2
    ≡ₚ record :: users fresh
    ∧ dict_get "name" record = Some name
    ∧ given_or None "SafeShe User" name
    ∧ dict_get "provider_id" record = Some provider_id
    ∧ given_or None "mock-token" provider_id
    ∧ dict_get "is_active" record = Some (VBool true).
Proof.
  apply (mock_login_stores_defaults str_of any_format any_format
           (login_with "mock") fresh
           [("user_id", VStr "id0"); ("provider", VStr "mock")]).
  vm_compute. reflexivity.
Defined.


